(** * TermiTask: task store, filter engine and recurrence engine

    A shallow embedding of [src/database.py] (the [DatabaseManager]
    operations on the [tasks] and [users] tables), of [update], [workload]
    and the overdue post-filter of [src/cli.py] and of
    [src/utils/reminders.py], with the properties of the specification
    stated and settled against it.

    Conventions.
    - A Python [str] is a [string]; its characters are the bytes of the
      UTF-8 text, on which Python's code-point order and SQLite's BINARY
      collation agree.
    - A value stored in a column is [None] (SQL NULL, Python [None]) or
      [Some s] (TEXT), the two kinds of value the program writes. Type
      affinity is left out: SQLite stores back unchanged a value it has
      returned from the same column.
    - A dict used as a patch is a [gmap] from column names to values.
    - A call that may raise returns a [result]; the store operations catch
      [sqlite3.Error] themselves and return a [bool] next to the new
      database. *)

From Stdlib Require Import ZArith Lia Bool Ascii String Permutation Sorted.
From stdpp Require Import base option list strings gmap.

Local Open Scope string_scope.
Local Open Scope Z_scope.

(** ** Exceptions *)

Inductive exn : Type :=
  | ValueError
  | OverflowError.

Inductive result (A : Type) : Type :=
  | Ok (a : A)
  | Raise (e : exn).

Arguments Ok {A} a.
Arguments Raise {A} e.

Definition bind {A B : Type} (r : result A) (k : A -> result B) : result B :=
  match r with
  | Ok a => k a
  | Raise e => Raise e
  end.

Notation "'let?' x ':=' r 'in' k" := (bind r (fun x => k))
  (at level 10, x name, r at level 100, k at level 200).

(** ** The part of Python's [datetime] that [utils/reminders.py] uses *)

Module Calendar.

Record datetime : Type := mkdatetime {
  year : Z;
  month : Z;
  day : Z;
  hour : Z;
  minute : Z;
  second : Z;
  microsecond : Z
}.

Definition MAXYEAR : Z := 9999.

Definition is_leap (y : Z) : bool :=
  (y mod 4 =? 0) && (negb (y mod 100 =? 0) || (y mod 400 =? 0)).

Definition days_in_month (y m : Z) : Z :=
  if (m =? 2) && is_leap y then 29
  else match m with
       | 1 => 31 | 2 => 28 | 3 => 31 | 4 => 30 | 5 => 31 | 6 => 30
       | 7 => 31 | 8 => 31 | 9 => 30 | 10 => 31 | 11 => 30 | 12 => 31
       | _ => 0
       end.

(** [_check_date_fields]: the test every date constructor runs. *)
Definition check_date_fields (y m d : Z) : bool :=
  (1 <=? y) && (y <=? MAXYEAR) && (1 <=? m) && (m <=? 12)
  && (1 <=? d) && (d <=? days_in_month y m).

Definition check_time_fields (h mi s us : Z) : bool :=
  (0 <=? h) && (h <=? 23) && (0 <=? mi) && (mi <=? 59)
  && (0 <=? s) && (s <=? 59) && (0 <=? us) && (us <=? 999999).

Definition valid (d : datetime) : bool :=
  check_date_fields (year d) (month d) (day d)
  && check_time_fields (hour d) (minute d) (second d) (microsecond d).

Definition with_date (y m d : Z) (t : datetime) : datetime :=
  mkdatetime y m d (hour t) (minute t) (second t) (microsecond t).

(** [t.replace(day=d)]: a new datetime, [ValueError] when the day is out
    of range for the month. *)
Definition replace_day (d : Z) (t : datetime) : result datetime :=
  if check_date_fields (year t) (month t) d
  then Ok (with_date (year t) (month t) d t)
  else Raise ValueError.

(** [t + timedelta(days=1)]: the next calendar day, same time of day;
    [OverflowError] past 9999-12-31. *)
Definition tomorrow (t : datetime) : result datetime :=
  if day t <? days_in_month (year t) (month t)
  then Ok (with_date (year t) (month t) (day t + 1) t)
  else if month t <? 12
  then Ok (with_date (year t) (month t + 1) 1 t)
  else if year t <? MAXYEAR
  then Ok (with_date (year t + 1) 1 1 t)
  else Raise OverflowError.

(** [t + timedelta(days=n)] for [n >= 0]: [n] calendar days later. *)
Fixpoint add_days (n : nat) (t : datetime) : result datetime :=
  match n with
  | O => Ok t
  | S n' => let? t' := tomorrow t in add_days n' t'
  end.

(** Comparison of naive datetimes: lexicographic on the seven fields. *)
Definition key (t : datetime) : list Z :=
  [year t; month t; day t; hour t; minute t; second t; microsecond t].

Fixpoint lex_leb (a b : list Z) : bool :=
  match a, b with
  | [], _ => true
  | _ :: _, [] => false
  | x :: a', y :: b' => (x <? y) || ((x =? y) && lex_leb a' b')
  end.

Definition leb (a b : datetime) : bool := lex_leb (key a) (key b).

End Calendar.

Import Calendar.

(** ** [utils/reminders.py]: [calculate_next_occurrence] *)

(** [recurrence] is the value of the column: a [str] or [None]. *)
Definition calculate_next_occurrence
    (due_date : datetime) (recurrence : option string) : result datetime :=
  if bool_decide (recurrence = Some "daily") then add_days 1 due_date
  else if bool_decide (recurrence = Some "weekly") then add_days 7 due_date
  else if bool_decide (recurrence = Some "monthly") then
    let? first := replace_day 1 due_date in
    let? later := add_days 32 first in
    replace_day (day due_date) later
  else Ok due_date.

(** The month after month [m] of year [y]. *)
Definition next_month (y m : Z) : Z * Z :=
  if m <? 12 then (y, m + 1) else (y + 1, 1).

(** ** SQLite values, comparison and [LIKE] *)

(** A stored value: [None] is NULL, [Some s] is TEXT. *)
Definition sqlval : Type := option string.

(** [a = b] in a WHERE clause. A comparison with NULL is NULL, and a row
    is selected only when the clause is true; the clauses of this program
    combine comparisons with AND and OR only, so that taking NULL for
    false at the comparison selects the same rows. *)
Definition sql_eq (a b : sqlval) : bool :=
  match a, b with
  | Some x, Some y => String.eqb x y
  | _, _ => false
  end.

(** Python truthiness of a [str] or [None]. *)
Definition truthy (v : option string) : bool :=
  match v with
  | Some (String _ _) => true
  | _ => false
  end.

(** SQLite folds the case of the 26 ASCII letters only, in [LIKE] and in
    the names of columns. *)
Definition lower (c : ascii) : ascii :=
  let n := N_of_ascii c in
  if ((65 <=? n) && (n <=? 90))%N then ascii_of_N (n + 32) else c.

(** Equality of texts up to the case of ASCII letters. *)
Fixpoint eq_nocase (a b : string) : bool :=
  match a, b with
  | EmptyString, EmptyString => true
  | String c a', String d b' => Ascii.eqb (lower c) (lower d) && eq_nocase a' b'
  | _, _ => false
  end.

(** *** The characters [LIKE] compares

    [LIKE] reads a text as a C string of UTF-8 characters: it stops at the
    first NUL byte, and [sqlite3Utf8Read] makes one character of a byte
    from 0xC0 on and of the bytes 10xxxxxx that follow it. *)

Fixpoint c_string (bytes : list N) : list N :=
  match bytes with
  | [] => []
  | b :: rest => if (b =? 0)%N then [] else b :: c_string rest
  end.

(** [sqlite3Utf8Trans1]: the payload bits of a leading byte. *)
Definition lead_bits (b : N) : N :=
  if (b <? 224)%N then N.land b 31
  else if (b <? 240)%N then N.land b 15
  else if (b <? 248)%N then N.land b 7
  else if (b <? 252)%N then N.land b 3
  else if (b <? 254)%N then N.land b 1
  else 0%N.

Definition continues (b : N) : bool := (N.land b 192 =? 128)%N.

(** [c = (c<<6) + (0x3f & b)], in 32 bits. *)
Definition push (c b : N) : N := ((N.shiftl c 6 + N.land b 63) mod 2 ^ 32)%N.

(** What [sqlite3Utf8Read] returns once the bytes of a character are
    read: U+FFFD for a value below 0x80, a surrogate, U+FFFE or U+FFFF. *)
Definition settle (c : N) : N :=
  if ((c <? 128) || (N.land c 4294965248 =? 55296) || (N.land c 4294967294 =? 65534))%N
  then 65533%N else c.

(** The characters of a run of bytes; [pending] is the character whose
    leading byte has been read and whose bytes may go on. *)
Fixpoint chars_from (pending : option N) (bytes : list N) : list N :=
  match bytes with
  | [] =>
      match pending with
      | Some c => [settle c]
      | None => []
      end
  | b :: rest =>
      match pending with
      | Some c =>
          if continues b then chars_from (Some (push c b)) rest
          else
            settle c
            :: (if (b <? 192)%N then b :: chars_from None rest
                else chars_from (Some (lead_bits b)) rest)
      | None =>
          if (b <? 192)%N then b :: chars_from None rest
          else chars_from (Some (lead_bits b)) rest
      end
  end.

Definition bytes_of (s : string) : list N := map N_of_ascii (list_ascii_of_string s).

Definition sql_chars (s : string) : list N := chars_from None (c_string (bytes_of s)).

(** [sqlite3Tolower] on a character below 0x80. *)
Definition fold_case (c : N) : N :=
  if ((65 <=? c) && (c <=? 90))%N then (c + 32)%N else c.

(** Two characters that [LIKE] takes for the same: equal, or both ASCII
    and equal up to case. *)
Definition same_char (c d : N) : bool :=
  ((c =? d) || ((c <? 128) && (d <? 128) && (fold_case c =? fold_case d)))%N.

Definition percent : N := 37%N.
Definition underscore : N := 95%N.

(** [like p s]: the text of characters [s] matches the pattern [p], as
    [patternCompare] decides it for LIKE without ESCAPE; [%] stands for
    any run of characters and [_] for any one character. *)
Fixpoint like (p s : list N) {struct p} : bool :=
  match p with
  | [] =>
      match s with
      | [] => true
      | _ :: _ => false
      end
  | c :: p' =>
      if (c =? percent)%N then
        (fix skip (s : list N) : bool :=
           like p' s
           || match s with
              | [] => false
              | _ :: s' => skip s'
              end) s
      else
        match s with
        | [] => false
        | d :: s' => ((c =? underscore)%N || same_char c d) && like p' s'
        end
  end.


(** [v LIKE pattern], for a pattern within the limit. *)
Definition sql_like (v : sqlval) (pattern : string) : bool :=
  match v with
  | Some s => like (sql_chars pattern) (sql_chars s)
  | None => false
  end.

(** The order of ORDER BY: NULL before every text, texts byte-wise. *)
Definition sql_leb (a b : sqlval) : bool :=
  match a, b with
  | None, _ => true
  | Some _, None => false
  | Some x, Some y => String.leb x y
  end.

(** A stable sort: rows with equal keys keep their storage order. SQL
    leaves the order of such rows open, and SQLite's depends on the plan
    it picks (for [ORDER BY priority DESC] it walks [idx_tasks_priority]
    backwards and gives them in reverse); no property below depends on the
    order of rows with equal keys. *)
Fixpoint insert_by {A : Type} (le : A -> A -> bool) (x : A) (l : list A) : list A :=
  match l with
  | [] => [x]
  | y :: l' => if le x y then x :: y :: l' else y :: insert_by le x l'
  end.

Fixpoint order_by {A : Type} (le : A -> A -> bool) (l : list A) : list A :=
  match l with
  | [] => []
  | x :: l' => insert_by le x (order_by le l')
  end.

(** ** The schema of [_initialize_database] *)

Inductive column : Type :=
  | Id | Title | Description | Due_date | Priority | Status
  | Tags | Recurrence | Created_at | Created_by | Assigned_to.

Definition column_name (c : column) : string :=
  match c with
  | Id => "id" | Title => "title" | Description => "description"
  | Due_date => "due_date" | Priority => "priority" | Status => "status"
  | Tags => "tags" | Recurrence => "recurrence" | Created_at => "created_at"
  | Created_by => "created_by" | Assigned_to => "assigned_to"
  end.

Definition all_columns : list column :=
  [Id; Title; Description; Due_date; Priority; Status;
   Tags; Recurrence; Created_at; Created_by; Assigned_to].

(** SQLite resolves the name of a column without regard to the case of
    ASCII letters: [ID] and [Created_By] name [id] and [created_by]. *)
Definition names (k : string) (c : column) : bool := eq_nocase k (column_name c).

Definition is_column (k : string) : bool := existsb (names k) all_columns.

Module Task.

(** A row of [tasks]; [dict(row)] has the same eleven entries. *)
Record row : Type := mk {
  id : sqlval;
  title : sqlval;
  description : sqlval;
  due_date : sqlval;
  priority : sqlval;
  status : sqlval;
  tags : sqlval;
  recurrence : sqlval;
  created_at : sqlval;
  created_by : sqlval;
  assigned_to : sqlval
}.

Definition get (c : column) (r : row) : sqlval :=
  match c with
  | Id => id r | Title => title r | Description => description r
  | Due_date => due_date r | Priority => priority r | Status => status r
  | Tags => tags r | Recurrence => recurrence r | Created_at => created_at r
  | Created_by => created_by r | Assigned_to => assigned_to r
  end.

Definition set_due_date (v : sqlval) (r : row) : row :=
  mk (id r) (title r) (description r) v (priority r) (status r)
     (tags r) (recurrence r) (created_at r) (created_by r) (assigned_to r).

Definition set_assigned_to (v : sqlval) (r : row) : row :=
  mk (id r) (title r) (description r) (due_date r) (priority r) (status r)
     (tags r) (recurrence r) (created_at r) (created_by r) v.

(** NOT NULL and CHECK constraints of the table. *)
Definition constraints (r : row) : bool :=
  match title r, priority r, status r, created_by r with
  | Some _, Some p, Some s, Some _ =>
      existsb (String.eqb p) ["low"; "medium"; "high"; "critical"]
      && existsb (String.eqb s) ["pending"; "completed"]
  | _, _, _, _ => false
  end.

End Task.

Module User.

Record row : Type := mk {
  username : sqlval;
  email : sqlval;
  hashed_password : sqlval;
  settings : sqlval;
  created_at : sqlval
}.

End User.

Record database : Type := mkdb {
  users : list User.row;
  tasks : list Task.row
}.

Definition with_tasks (db : database) (ts : list Task.row) : database :=
  mkdb (users db) ts.

(** PRIMARY KEY on [id]: no two rows share a non-NULL id (SQLite lets a
    TEXT primary key be NULL, and NULLs never collide). *)
Definition unique_ids (ts : list Task.row) : Prop := NoDup (omap Task.id ts).

Definition unique_idsb (ts : list Task.row) : bool :=
  bool_decide (NoDup (omap Task.id ts)).

(** What the schema guarantees of every stored table. *)
Definition well_formed (db : database) : Prop :=
  unique_ids (tasks db) /\ forallb Task.constraints (tasks db) = true.

(** ** [database.py]: [get_tasks] *)

Module Filters.

(** The [filters] dict, with the keys the call sites pass: [username],
    [priority], [status], [search] and [tags] from [cli.list_tasks] and
    [get_user_tasks], [recurrence] from [utils/reminders.py]. An absent key
    is [None], which is what [filters.get] returns for it. *)
Record t : Type := mk {
  username : option string;
  search : option string;
  tags : option (list string);
  priority : option string;
  status : option string;
  recurrence : option bool
}.

(** No key at all; [get_tasks()] with [filters=None] behaves the same. *)
Definition empty : t := mk None None None None None None.

End Filters.

(** Each [if filters.get(k):] block appends one conjunct to the WHERE
    clause; a block that is skipped leaves the clause as it is. *)
Definition where_username (f : Filters.t) (r : Task.row) : bool :=
  if truthy (Filters.username f)
  then sql_eq (Task.created_by r) (Filters.username f)
       || sql_eq (Task.assigned_to r) (Filters.username f)
  else true.

Definition contains_pattern (s : string) : string := "%" +:+ s +:+ "%".

Definition where_search (f : Filters.t) (r : Task.row) : bool :=
  match Filters.search f with
  | Some (String _ _ as s) =>
      sql_like (Task.title r) (contains_pattern s)
      || sql_like (Task.description r) (contains_pattern s)
  | _ => true
  end.

Definition where_tags (f : Filters.t) (r : Task.row) : bool :=
  match Filters.tags f with
  | Some ((_ :: _) as l) =>
      existsb (fun tag => sql_like (Task.tags r) (contains_pattern tag)) l
  | _ => true
  end.

Definition where_priority (f : Filters.t) (r : Task.row) : bool :=
  if truthy (Filters.priority f)
  then sql_eq (Task.priority r) (Filters.priority f)
  else true.

Definition where_status (f : Filters.t) (r : Task.row) : bool :=
  if truthy (Filters.status f)
  then sql_eq (Task.status r) (Filters.status f)
  else true.

Definition where_clause (f : Filters.t) (r : Task.row) : bool :=
  where_username f r && where_search f r && where_tags f r
  && where_priority f r && where_status f r.

Definition order_leb (sort : column) (reverse : bool) (a b : Task.row) : bool :=
  if reverse
  then sql_leb (Task.get sort b) (Task.get sort a)
  else sql_leb (Task.get sort a) (Task.get sort b).

Definition get_tasks (db : database) (filters : Filters.t)
    (sort : column) (reverse : bool) : list Task.row :=
  order_by (order_leb sort reverse) (filter (fun r => where_clause filters r = true) (tasks db)).

(** ** [database.py]: [update_task], [delete_task], [assign_task] *)

(** The entries of the patch whose key names column [c]. *)
Definition assignments (updates : gmap string sqlval) (c : column)
    : list (string * sqlval) :=
  filter (fun kv => names kv.1 c = true) (map_to_list updates).

(** The value column [c] has after [SET k = ?, ...] with the entries of
    [updates]: the patch's value when a key names the column, else the
    old. (When two keys name one column, as [title] and [TITLE], SQLite
    keeps the assignment that comes last in the dict; a [gmap] keeps no
    order, and the first of [map_to_list] is taken here. No property below
    depends on the choice.) *)
Definition patch_field (updates : gmap string sqlval) (r : Task.row) (c : column) : sqlval :=
  match assignments updates c with
  | (_, v) :: _ => v
  | [] => Task.get c r
  end.

Definition patched (updates : gmap string sqlval) (r : Task.row) : Task.row :=
  Task.mk (patch_field updates r Id) (patch_field updates r Title)
    (patch_field updates r Description) (patch_field updates r Due_date)
    (patch_field updates r Priority) (patch_field updates r Status)
    (patch_field updates r Tags) (patch_field updates r Recurrence)
    (patch_field updates r Created_at) (patch_field updates r Created_by)
    (patch_field updates r Assigned_to).

(** [SET k1 = ?, k2 = ?, ...] from the keys of the patch: the statement
    prepares only with at least one assignment, each to a column of the
    table. A key is read as one bare name: a key that is a quoted name, a
    hidden column as [rowid] or a piece of SQL is outside this model, and
    every property of [update_task] over arbitrary patches below keeps to
    patches whose keys name columns. *)
Definition set_clause_ok (updates : gmap string sqlval) : bool :=
  negb (bool_decide (updates = ∅))
  && bool_decide (map_Forall (fun k _ => is_column k = true) updates).

Definition update_rows (task_id : sqlval) (updates : gmap string sqlval)
    (ts : list Task.row) : list Task.row :=
  map (fun r => if sql_eq (Task.id r) task_id then patched updates r else r) ts.

(** The constraints SQLite checks on the rows the UPDATE writes. *)
Definition update_allowed (task_id : sqlval) (updates : gmap string sqlval)
    (ts : list Task.row) : bool :=
  forallb (fun r => negb (sql_eq (Task.id r) task_id) || Task.constraints (patched updates r)) ts
  && unique_idsb (update_rows task_id updates ts).

(** Returns [True] once the UPDATE has run, [False] on [sqlite3.Error]
    (the transaction is rolled back). *)
Definition update_task (db : database) (task_id : sqlval)
    (updates : gmap string sqlval) : database * bool :=
  if set_clause_ok updates && update_allowed task_id updates (tasks db)
  then (with_tasks db (update_rows task_id updates (tasks db)), true)
  else (db, false).

Definition delete_task (db : database) (task_id : sqlval) : database * bool :=
  (with_tasks db (filter (fun r => sql_eq (Task.id r) task_id = false) (tasks db)), true).

Definition owned_by (task_id assigner : string) (r : Task.row) : bool :=
  sql_eq (Task.id r) (Some task_id) && sql_eq (Task.created_by r) (Some assigner).

Definition assign_task (db : database) (task_id assigner assignee : string)
    : database * bool :=
  if negb (existsb (fun u => sql_eq (User.username u) (Some assignee)) (users db))
  then (db, false)
  else
    let rowcount := length (filter (fun r => owned_by task_id assigner r = true) (tasks db)) in
    (with_tasks db
       (map (fun r => if owned_by task_id assigner r
                      then Task.set_assigned_to (Some assignee) r else r)
            (tasks db)),
     bool_decide (0 < rowcount)%nat).

(** ** [cli.py]: the [--overdue] post-filter of [list_tasks] *)

(** [now] is [datetime.now().isoformat()]; the comparison is Python's
    [str] comparison. *)
Definition is_overdue (now : string) (t : Task.row) : bool :=
  truthy (Task.due_date t)
  && match Task.due_date t with
     | Some d => String.ltb d now
     | None => false
     end
  && negb (bool_decide (Task.status t = Some "completed")).

Definition overdue_filter (now : string) (ts : list Task.row) : list Task.row :=
  filter (fun t => is_overdue now t = true) ts.

(** ** [utils/reminders.py]: [check_and_update_recurring_tasks] *)

(** [dict(row)], the dict [get_tasks] returns for a row. *)
Definition row_dict (r : Task.row) : gmap string sqlval :=
  list_to_map (map (fun c => (column_name c, Task.get c r)) all_columns).

(** How a scan ended: it returned, or an exception left the loop. Every
    [update_task] before that has been committed on its own. *)
Inductive outcome : Type :=
  | Returned
  | Raised (e : exn).

Section Recurrence.

(** [datetime.fromisoformat] and [datetime.isoformat], of the Python
    library: any parser and printer. [None] stands for a text on which the
    test of the loop raises: the [ValueError] of a text that does not
    parse (and the [TypeError] of the comparison with [now] when the text
    carries a UTC offset). *)
Variable fromisoformat : string -> option datetime.
Variable isoformat : datetime -> string.

(** [datetime.now()], taken once for the scan. *)
Variable now : datetime.

(** The body of the [for] loop, over the list fetched before the loop. *)
Fixpoint scan_loop (fetched : list Task.row) (db : database) : database * outcome :=
  match fetched with
  | [] => (db, Returned)
  | task :: rest =>
      match Task.due_date task with
      | Some (String _ _ as text) =>
          match fromisoformat text with
          | None => (db, Raised ValueError)
          | Some due =>
              if Calendar.leb due now then
                match calculate_next_occurrence due (Task.recurrence task) with
                | Raise e => (db, Raised e)
                | Ok next =>
                    let updated_task :=
                      <["due_date" := Some (isoformat next)]> (row_dict task) in
                    scan_loop rest (update_task db (Task.id task) updated_task).1
                end
              else scan_loop rest db
          end
      | _ => scan_loop rest db
      end
  end.

(** The test of the loop: the due date is set and is not after [now]. *)
Definition elapsed (task : Task.row) : bool :=
  match Task.due_date task with
  | Some (String _ _ as text) =>
      match fromisoformat text with
      | Some due => Calendar.leb due now
      | None => false
      end
  | _ => false
  end.

(** [rolled r r']: the scan rolls [r] over into [r']. The due date is set
    and not empty, it parses to a time not after [now], the next
    occurrence is computed without exception, and [r'] is [r] with the
    ISO text of the next occurrence as its due date. *)
Definition rolled (r r' : Task.row) : Prop :=
  exists text due next,
    Task.due_date r = Some text /\ text <> ""
    /\ fromisoformat text = Some due /\ Calendar.leb due now = true
    /\ calculate_next_occurrence due (Task.recurrence r) = Ok next
    /\ r' = Task.set_due_date (Some (isoformat next)) r.

(** Nothing raises on [task]: a due date that is set parses, and the next
    occurrence of one that has elapsed is computed without exception. *)
Definition can_roll (task : Task.row) : Prop :=
  match Task.due_date task with
  | Some (String _ _ as text) =>
      exists due, fromisoformat text = Some due
        /\ (Calendar.leb due now = true ->
            exists next, calculate_next_occurrence due (Task.recurrence task) = Ok next)
  | _ => True
  end.

(** What one scan does to a row: nothing, or one rollover (of a row that
    has an id: [WHERE id = NULL] selects no row). *)
Definition scanned (r r' : Task.row) : Prop :=
  r' = r \/ (Task.id r <> None /\ rolled r r').

(** [{"recurrence": True}], the filter the scan asks for. *)
Definition recurring : Filters.t :=
  Filters.mk None None None None None (Some true).

Definition check_and_update_recurring_tasks (db : database) : database * outcome :=
  scan_loop (get_tasks db recurring Due_date false) db.

End Recurrence.

(** ** ISO-8601 texts

    The printer is [datetime.isoformat()]. The parser reads the texts this
    program stores: [YYYY-MM-DD], which [cli.add] and [cli.update] accept,
    and what [isoformat] prints. It is the instance at which the scan is
    run on concrete stores; the properties of the scan hold for every
    parser. *)

Module Iso.

Definition digit_char (n : Z) : ascii := ascii_of_N (48 + Z.to_N (n mod 10)).

(** [n] in [width] decimal digits, zero-padded: [%0<width>d]. *)
Fixpoint pad (width : nat) (n : Z) : string :=
  match width with
  | O => EmptyString
  | S w => pad w (n / 10) +:+ String (digit_char n) EmptyString
  end.

Definition isoformat (t : datetime) : string :=
  pad 4 (year t) +:+ "-" +:+ pad 2 (month t) +:+ "-" +:+ pad 2 (day t)
  +:+ "T" +:+ pad 2 (hour t) +:+ ":" +:+ pad 2 (minute t) +:+ ":" +:+ pad 2 (second t)
  +:+ (if microsecond t =? 0 then "" else "." +:+ pad 6 (microsecond t)).

Definition digit_value (c : ascii) : option Z :=
  let n := N_of_ascii c in
  if ((48 <=? n) && (n <=? 57))%N then Some (Z.of_N n - 48) else None.

Fixpoint number_from (acc : Z) (s : string) : option Z :=
  match s with
  | EmptyString => Some acc
  | String c s' =>
      match digit_value c with
      | Some d => number_from (10 * acc + d) s'
      | None => None
      end
  end.

(** The decimal number in the [len] characters from position [pos]. *)
Definition number_at (pos len : nat) (s : string) : option Z :=
  number_from 0 (String.substring pos len s).

Definition char_is (pos : nat) (c : ascii) (s : string) : bool :=
  bool_decide (String.get pos s = Some c).

Definition parse_date (s : string) : option (Z * Z * Z) :=
  if char_is 4 "-" s && char_is 7 "-" s then
    match number_at 0 4 s, number_at 5 2 s, number_at 8 2 s with
    | Some y, Some m, Some d =>
        if check_date_fields y m d then Some (y, m, d) else None
    | _, _, _ => None
    end
  else None.

Definition parse_time (s : string) : option (Z * Z * Z) :=
  if char_is 13 ":" s && char_is 16 ":" s then
    match number_at 11 2 s, number_at 14 2 s, number_at 17 2 s with
    | Some h, Some mi, Some sec =>
        if check_time_fields h mi sec 0 then Some (h, mi, sec) else None
    | _, _, _ => None
    end
  else None.

Definition fromisoformat (s : string) : option datetime :=
  match parse_date s with
  | None => None
  | Some (y, m, d) =>
      match String.length s with
      | 10%nat => Some (mkdatetime y m d 0 0 0 0)
      | 19%nat =>
          match parse_time s with
          | Some (h, mi, sec) => Some (mkdatetime y m d h mi sec 0)
          | None => None
          end
      | 26%nat =>
          match parse_time s, char_is 19 "." s, number_at 20 6 s with
          | Some (h, mi, sec), true, Some us => Some (mkdatetime y m d h mi sec us)
          | _, _, _ => None
          end
      | _ => None
      end
  end.

End Iso.

(** ** Vocabulary of the properties *)

(** The table after [UPDATE tasks SET due_date = v WHERE id = task_id]. *)
Definition roll_rows (task_id v : sqlval) (ts : list Task.row) : list Task.row :=
  map (fun r => if sql_eq (Task.id r) task_id then Task.set_due_date v r else r) ts.

(** [r'] is [r] but for its due date. *)
Definition same_but_due_date (r r' : Task.row) : Prop :=
  Task.id r' = Task.id r /\ Task.title r' = Task.title r
  /\ Task.description r' = Task.description r
  /\ Task.priority r' = Task.priority r /\ Task.status r' = Task.status r
  /\ Task.tags r' = Task.tags r /\ Task.recurrence r' = Task.recurrence r
  /\ Task.created_at r' = Task.created_at r
  /\ Task.created_by r' = Task.created_by r
  /\ Task.assigned_to r' = Task.assigned_to r.

(** The id and the owner of every task, in storage order. *)
Definition identities (db : database) : list (sqlval * sqlval) :=
  map (fun r => (Task.id r, Task.created_by r)) (tasks db).

Definition due_dates (db : database) : list sqlval :=
  map Task.due_date (tasks db).

(** The three values [calculate_next_occurrence] knows. *)
Definition recurs (recurrence : option string) : bool :=
  bool_decide (recurrence = Some "daily")
  || bool_decide (recurrence = Some "weekly")
  || bool_decide (recurrence = Some "monthly").

(** ["," .join(tags)], the text [create_task] stores for a list of tags. *)
Fixpoint join_tags (tags : list string) : string :=
  match tags with
  | [] => ""
  | [t] => t
  | t :: rest => t +:+ "," +:+ join_tags rest
  end.

(** [earlier a b]: the time [a] is strictly before the time [b]. *)
Definition earlier (a b : datetime) : bool := negb (Calendar.leb b a).

(** Every key of the patch names one of the columns [cs]. *)
Definition names_only (cs : list column) (updates : gmap string sqlval) : bool :=
  forallb (fun kv : string * sqlval => existsb (names kv.1) cs) (map_to_list updates).

(** The columns other than [id] and [created_by]. *)
Definition other_columns : list column :=
  [Title; Description; Due_date; Priority; Status; Tags; Recurrence; Created_at;
   Assigned_to].






(** ** Stores and inputs the properties are run on *)

Module Sample.

Definition midnight (y m d : Z) : datetime := mkdatetime y m d 0 0 0 0.

(** A task as [cli.add] creates it. *)
Definition task (id : string) (due_date recurrence : sqlval) (tags owner : string)
    : Task.row :=
  Task.mk (Some id) (Some "task") (Some "") due_date (Some "medium")
    (Some "pending") (Some tags) recurrence (Some "2024-01-01 09:00:00")
    (Some owner) None.

Definition user (name : string) : User.row :=
  User.mk (Some name) (Some (name +:+ "@example.org")) (Some "$2b$12$hash")
    (Some "{}") (Some "2024-01-01 08:00:00").

Definition people : list User.row := [user "alice"; user "bob"].

Definition daily_store : database :=
  mkdb people [task "t-daily" (Some "2024-01-01") (Some "daily") "work" "alice"].

Definition monthly_store : database :=
  mkdb people [task "t-monthly" (Some "2024-01-31") (Some "monthly") "work" "alice"].

Definition plain_store : database :=
  mkdb people [task "t-plain" (Some "2024-01-05") None "home" "alice"].



Definition scan (now : datetime) (db : database) : database * outcome :=
  check_and_update_recurring_tasks Iso.fromisoformat Iso.isoformat now db.

End Sample.

(** ** [database.py]: users and their settings *)

Definition has_username (name : string) (u : User.row) : bool :=
  sql_eq (User.username u) (Some name).

Definition has_email (address : string) (u : User.row) : bool :=
  sql_eq (User.email u) (Some address).

(** PRIMARY KEY on [username], UNIQUE on [email]. *)
Definition unique_users (us : list User.row) : Prop :=
  NoDup (omap User.username us) /\ NoDup (omap User.email us).

Section Credentials.

(** [bcrypt.hashpw(password, salt)] and [bcrypt.checkpw(password, hashed)],
    of the bcrypt library: any hash and any verification. [None] stands
    for the [ValueError] either raises, on a password it refuses or on a
    text that is no hash. *)
Variable hashpw : string -> string -> option string.
Variable checkpw : string -> string -> option bool.

(** [salt] is the value of [bcrypt.gensalt()], [timestamp] the value of
    CURRENT_TIMESTAMP. The INSERT raises [sqlite3.IntegrityError] when the
    username or the email is taken. [None]: the exception of [hashpw],
    which is raised before the INSERT, leaves [create_user]. *)
Definition create_user (db : database) (username email password : string)
    (salt timestamp : string) : option (database * bool) :=
  hashed ← hashpw password salt;
  Some
    (if existsb (fun u => has_username username u || has_email email u) (users db)
     then (db, false)
     else
       (mkdb
          (users db
           ++ [User.mk (Some username) (Some email) (Some hashed)
                 (Some "{}") (Some timestamp)])
          (tasks db),
        true)).

(** [fetchone()] is the first row of the username. [None] stands for an
    exception: that of [checkpw], or the one [result[0].encode()] raises
    on a NULL, which NOT NULL keeps out of the column. *)
Definition authenticate_user (db : database) (username password : string)
    : option bool :=
  match filter (fun u => has_username username u = true) (users db) with
  | [] => Some false
  | u :: _ =>
      hashed ← User.hashed_password u;
      checkpw password hashed
  end.

End Credentials.

Section Settings.

(** [json.dumps] and [json.loads], of the Python library: any printer and
    any parser of a type of settings. [None] stands for
    [json.JSONDecodeError]; [no_settings] is the dict [{}]. *)
Variable settings : Type.
Variable no_settings : settings.
Variable dumps : settings -> string.
Variable loads : string -> option settings.

Definition get_user_settings (db : database) (username : string) : settings :=
  match filter (fun u => has_username username u = true) (users db) with
  | u :: _ =>
      match User.settings u with
      | Some (String _ _ as text) => default no_settings (loads text)
      | _ => no_settings
      end
  | [] => no_settings
  end.

Definition with_settings (text : string) (u : User.row) : User.row :=
  User.mk (User.username u) (User.email u) (User.hashed_password u)
    (Some text) (User.created_at u).

Definition save_settings (db : database) (username : string) (prefs : settings)
    : database * bool :=
  (mkdb
     (map (fun u => if has_username username u then with_settings (dumps prefs) u else u)
          (users db))
     (tasks db),
   true).

End Settings.

(** ** [database.py]: [create_task], [get_user_tasks] *)

(** The values [task_data] holds at its call sites: [None], a [str], a
    list of [str] (the tags). *)
Inductive pyval : Type :=
  | PyNone
  | PyStr (s : string)
  | PyList (l : list string).

(** [not task_data.get(k)] is false exactly on these. *)
Definition py_truthy (v : option pyval) : bool :=
  match v with
  | Some (PyStr (String _ _)) => true
  | Some (PyList (_ :: _)) => true
  | _ => false
  end.

(** A value as the parameter of a statement: [None] is NULL, a [str] is
    TEXT, a list cannot be bound and sqlite3 raises an [Error]. *)
Definition bind_param (v : pyval) : option sqlval :=
  match v with
  | PyNone => Some None
  | PyStr s => Some (Some s)
  | PyList _ => None
  end.

(** [task_data.get(k, fallback)]. *)
Definition get_or (task_data : gmap string pyval) (k : string) (fallback : pyval) : pyval :=
  default fallback (task_data !! k).

(** [",".join(task_data["tags"])] for a list, else [task_data.get("tags", "")]. *)
Definition tags_param (task_data : gmap string pyval) : pyval :=
  match task_data !! "tags" with
  | Some (PyList l) => PyStr (join_tags l)
  | _ => get_or task_data "tags" (PyStr "")
  end.

(** The row of the INSERT; [None] when a parameter cannot be bound. *)
Definition inserted_row (task_data : gmap string pyval) (task_id timestamp : string)
    : option Task.row :=
  title ← bind_param (get_or task_data "title" PyNone);
  description ← bind_param (get_or task_data "description" (PyStr ""));
  due_date ← bind_param (get_or task_data "due_date" PyNone);
  priority ← bind_param (get_or task_data "priority" (PyStr "medium"));
  status ← bind_param (get_or task_data "status" (PyStr "pending"));
  tags ← bind_param (tags_param task_data);
  recurrence ← bind_param (get_or task_data "recurrence" PyNone);
  created_by ← bind_param (get_or task_data "created_by" PyNone);
  assigned_to ← bind_param (get_or task_data "assigned_to" PyNone);
  Some (Task.mk (Some task_id) title description due_date priority status tags
          recurrence (Some timestamp) created_by assigned_to).

(** [task_id] is the value of [str(uuid4())], [timestamp] the value of
    CURRENT_TIMESTAMP. Returns the id, or [None] when a required field is
    missing or on [sqlite3.Error]. *)
Definition create_task (db : database) (task_data : gmap string pyval)
    (task_id timestamp : string) : database * option string :=
  if negb (py_truthy (task_data !! "title"))
     || negb (py_truthy (task_data !! "created_by"))
  then (db, None)
  else
    match inserted_row task_data task_id timestamp with
    | Some row =>
        if Task.constraints row && unique_idsb (tasks db ++ [row])
        then (with_tasks db (tasks db ++ [row]), Some task_id)
        else (db, None)
    | None => (db, None)
    end.

Definition get_user_tasks (db : database) (username : string) : list Task.row :=
  get_tasks db (Filters.mk (Some username) None None None None None) Due_date false.

(** ** [cli.py]: [update], [workload], and the tags [list_tasks] prints *)

Module Cli.

(** [len(s)]: the number of characters, which are the bytes of the UTF-8
    text that do not continue a character. *)
Definition continues (c : ascii) : bool :=
  let n := N_of_ascii c in ((128 <=? n) && (n <? 192))%N.

Fixpoint len (s : string) : nat :=
  match s with
  | EmptyString => O
  | String c s' => if continues c then len s' else S (len s')
  end.

(** [s.split(",")]. *)
Fixpoint split_commas (s : string) : list string :=
  match s with
  | EmptyString => [""]
  | String c s' =>
      if Ascii.eqb c ","
      then "" :: split_commas s'
      else match split_commas s' with
           | [] => [String c ""]
           | head :: tail => String c head :: tail
           end
  end.

(** The tags of a task as [list_tasks] splits them to print them; [None]
    is the text "None" it prints for a task without tags. *)
Definition shown_tags (t : Task.row) : option (list string) :=
  match Task.tags t with
  | Some (String _ _ as text) => Some (split_commas text)
  | _ => None
  end.

(** What [update] echoes. *)
Inductive update_echo : Type :=
  | Invalid_task_id
  | Invalid_date_format
  | No_updates_provided
  | Task_updated
  | Update_failed.

Section Update.

(** Whether [datetime.strptime(due_date, "%Y-%m-%d")] returns. *)
Variable strptime_ok : string -> bool.

(** The dict [update] builds from its options, [None] when the date is
    refused. An option that is not given is [None]; [tag] is the tuple of
    the [--tag] options. *)
Definition update_patch (status due_date priority : option string)
    (tag : list string) (description : option string)
    : option (gmap string sqlval) :=
  let updates : gmap string sqlval := ∅ in
  let updates := if truthy status then <["status" := status]> updates else updates in
  let dated :=
    match due_date with
    | Some (String _ _ as text) =>
        if strptime_ok text then Some (<["due_date" := due_date]> updates) else None
    | _ => Some updates
    end in
  match dated with
  | None => None
  | Some updates =>
      let updates :=
        if truthy priority then <["priority" := priority]> updates else updates in
      let updates :=
        match tag with
        | [] => updates
        | _ :: _ => <["tags" := Some (join_tags tag)]> updates
        end in
      let updates :=
        if truthy description then <["description" := description]> updates
        else updates in
      Some updates
  end.

Definition update (db : database) (task_id : string)
    (status due_date priority : option string) (tag : list string)
    (description : option string) : database * update_echo :=
  if negb (truthy (Some task_id)) || negb (Nat.eqb (len task_id) 36)
  then (db, Invalid_task_id)
  else
    match update_patch status due_date priority tag description with
    | None => (db, Invalid_date_format)
    | Some updates =>
        if bool_decide (updates = ∅) then (db, No_updates_provided)
        else
          let (db', ok) := update_task db (Some task_id) updates in
          (db', if ok then Task_updated else Update_failed)
    end.

End Update.

(** [counts[key] += 1]; [None] is the [KeyError] of a key the dict does
    not hold. *)
Definition count_up (counts : gmap string nat) (key : sqlval) : option (gmap string nat) :=
  match key with
  | Some k =>
      match counts !! k with
      | Some n => Some (<[k := S n]> counts)
      | None => None
      end
  | None => None
  end.

Fixpoint tally (ts : list Task.row) (status_counts priority_counts : gmap string nat)
    : option (gmap string nat * gmap string nat) :=
  match ts with
  | [] => Some (status_counts, priority_counts)
  | task :: rest =>
      match count_up status_counts (Task.status task),
            count_up priority_counts (Task.priority task) with
      | Some status_counts', Some priority_counts' =>
          tally rest status_counts' priority_counts'
      | _, _ => None
      end
  end.

(** The numbers [workload] prints: the total, the counts by status and
    the counts by priority. *)
Definition workload (db : database) (username : string)
    : option (nat * gmap string nat * gmap string nat) :=
  let tasks := get_user_tasks db username in
  match tally tasks {["pending" := O; "completed" := O]}
          {["critical" := O; "high" := O; "medium" := O; "low" := O]} with
  | Some (status_counts, priority_counts) =>
      Some (length tasks, status_counts, priority_counts)
  | None => None
  end.

End Cli.

(** ** Vocabulary of the further properties *)

(** The date of [a] is before the date of [b]. *)
Definition date_before (a b : datetime) : Prop :=
  year a < year b
  \/ (year a = year b
      /\ (month a < month b \/ (month a = month b /\ day a < day b))).

(** The text YYYY-MM-DD of a date, the form [cli.add] asks for. *)
Definition date_text (y m d : Z) : string :=
  Iso.pad 4 y +:+ "-" +:+ Iso.pad 2 m +:+ "-" +:+ Iso.pad 2 d.

(** No comma in the text. *)
Fixpoint comma_free (s : string) : bool :=
  match s with
  | EmptyString => true
  | String c s' => negb (Ascii.eqb c ",") && comma_free s'
  end.

(** The values of the columns [priority] and [status]. *)
Definition priorities : list sqlval :=
  [Some "low"; Some "medium"; Some "high"; Some "critical"].

Definition statuses : list sqlval := [Some "pending"; Some "completed"].

(** Further stores and inputs. *)
Module More.

Definition mixed_store : database :=
  mkdb Sample.people
    [Sample.task "m-daily" (Some "2024-01-01") (Some "daily") "work" "alice";
     Sample.task "m-later" (Some "2024-06-01T09:00:00") (Some "weekly") "home" "bob";
     Sample.task "m-undated" None (Some "monthly") "" "alice";
     Sample.task "m-plain" (Some "2024-01-03") None "home,garden" "bob"].

Definition noon (y m d : Z) : datetime := mkdatetime y m d 12 0 0 0.

(** A stand-in for bcrypt, to run the properties on: the hash is the
    salt followed by the password. *)
Definition hashpw (password salt : string) : option string := Some (salt +:+ password).

Definition checkpw (password hashed : string) : option bool :=
  Some (String.eqb (substring 4 (String.length hashed - 4) hashed) password).

(** A stand-in for json: the settings are the text itself. *)
Definition dumps (prefs : string) : string := prefs.

Definition loads (text : string) : option string := Some text.

End More.

(** * Properties *)

(** ** Comparisons and lists *)

Lemma sql_eq_true (a b : sqlval) :
  sql_eq a b = true <-> exists s, a = Some s /\ b = Some s.
Proof.
  unfold sql_eq. destruct a as [x|], b as [y|]; split.
  - intros H%String.eqb_eq. subst. eauto.
  - intros (s & [= ->] & [= ->]). apply String.eqb_refl.
  - discriminate.
  - intros (s & _ & [=]).
  - discriminate.
  - intros (s & [=] & _).
  - discriminate.
  - intros (s & [=] & _).
Qed.

Lemma sql_eq_Some (a : sqlval) (s : string) :
  sql_eq a (Some s) = true <-> a = Some s.
Proof.
  rewrite sql_eq_true. split.
  - intros (x & -> & [= ->]). reflexivity.
  - intros ->. eauto.
Qed.

Lemma insert_by_Permutation {A : Type} (le : A -> A -> bool) (x : A) (l : list A) :
  insert_by le x l ≡ₚ x :: l.
Proof.
  induction l as [|y l IH]; simpl; [reflexivity|].
  destruct (le x y); [reflexivity|].
  rewrite IH. apply perm_swap.
Qed.

Lemma order_by_Permutation {A : Type} (le : A -> A -> bool) (l : list A) :
  order_by le l ≡ₚ l.
Proof.
  induction l as [|x l IH]; simpl; [reflexivity|].
  rewrite insert_by_Permutation. by rewrite IH.
Qed.

Lemma map_unchanged {A : Type} (f : A -> A) (l : list A) :
  (forall x, x ∈ l -> f x = x) -> map f l = l.
Proof.
  induction l as [|x l IH]; intros H; simpl; [reflexivity|].
  rewrite H by left. rewrite IH; [reflexivity|].
  intros y Hy. apply H. by right.
Qed.

Lemma with_tasks_same (db : database) : with_tasks db (tasks db) = db.
Proof. by destruct db. Qed.

(** ** The query *)

Lemma get_tasks_elem_of (db : database) (f : Filters.t) (sort : column)
    (reverse : bool) (r : Task.row) :
  r ∈ get_tasks db f sort reverse <-> r ∈ tasks db /\ where_clause f r = true.
Proof.
  unfold get_tasks. rewrite order_by_Permutation, list_elem_of_filter. tauto.
Qed.

Lemma get_tasks_recurring (db : database) (sort : column) (reverse : bool) :
  get_tasks db recurring sort reverse ≡ₚ tasks db.
Proof.
  unfold get_tasks. rewrite order_by_Permutation.
  induction (tasks db) as [|r l IH]; [reflexivity|].
  rewrite filter_cons_True by reflexivity. by rewrite IH.
Qed.

(** ** Assignment *)




(** ** Next occurrence *)

Lemma days_in_month_bounds (y m : Z) :
  1 <= m <= 12 -> 28 <= days_in_month y m <= 31.
Proof.
  intros Hm. unfold days_in_month.
  assert (Hc : m = 1 \/ m = 2 \/ m = 3 \/ m = 4 \/ m = 5 \/ m = 6 \/ m = 7
               \/ m = 8 \/ m = 9 \/ m = 10 \/ m = 11 \/ m = 12) by lia.
  destruct (is_leap y);
    repeat (destruct Hc as [-> | Hc]; [simpl; lia|]); subst; simpl; lia.
Qed.

Lemma add_days_app (a b : nat) (t : datetime) :
  add_days (a + b) t = bind (add_days a t) (add_days b).
Proof.
  revert t. induction a as [|a IH]; intros t; simpl; [reflexivity|].
  destruct (tomorrow t); simpl; [apply IH | reflexivity].
Qed.

(** Within the month, adding days adds to the day of the month. *)
Lemma add_days_within (n : nat) (t : datetime) :
  day t + Z.of_nat n <= days_in_month (year t) (month t) ->
  add_days n t = Ok (with_date (year t) (month t) (day t + Z.of_nat n) t).
Proof.
  revert t. induction n as [|n IH]; intros t Hle.
  - simpl. destruct t; unfold with_date; simpl. f_equal. f_equal. lia.
  - simpl. unfold tomorrow.
    destruct (Z.ltb_spec (day t) (days_in_month (year t) (month t))); [|lia].
    simpl. rewrite IH by (simpl; lia).
    unfold with_date. simpl. f_equal. f_equal. lia.
Qed.

(** Thirty-two days after the first of a month is a day of the next
    month, whatever the month. *)
Lemma add_days_32_first (y m h mi s us : Z) :
  1 <= m <= 12 -> m < 12 \/ y < MAXYEAR ->
  add_days 32 (mkdatetime y m 1 h mi s us)
  = Ok (mkdatetime (next_month y m).1 (next_month y m).2
          (33 - days_in_month y m) h mi s us).
Proof.
  intros Hm Hy.
  pose proof (days_in_month_bounds y m Hm) as Hdim.
  replace 32%nat
    with (Z.to_nat (days_in_month y m - 1)
          + (1 + Z.to_nat (32 - days_in_month y m)))%nat by lia.
  rewrite add_days_app, add_days_within by (simpl; lia).
  cbn [bind]. rewrite add_days_app.
  cbn [add_days bind year month day with_date hour minute second microsecond].
  unfold tomorrow. cbn [year month day with_date hour minute second microsecond].
  destruct (Z.ltb_spec (1 + Z.of_nat (Z.to_nat (days_in_month y m - 1)))
              (days_in_month y m)); [lia|].
  unfold next_month.
  assert (Hnext : forall y', 1 + Z.of_nat (Z.to_nat (32 - days_in_month y m))
                             <= days_in_month y' (if m <? 12 then m + 1 else 1)).
  { intros y'.
    assert (1 <= (if m <? 12 then m + 1 else 1) <= 12)
      by (destruct (Z.ltb_spec m 12); lia).
    pose proof (days_in_month_bounds y' _ H0). lia. }
  destruct (Z.ltb_spec m 12) as [Hlt|Hge].
  - cbn [bind]. rewrite add_days_within by (simpl; apply Hnext).
    unfold with_date. simpl. f_equal. f_equal. lia.
  - destruct Hy as [Hy|Hy]; [lia|].
    destruct (Z.ltb_spec y MAXYEAR); [|lia].
    cbn [bind]. rewrite add_days_within by (simpl; apply Hnext).
    unfold with_date. simpl. f_equal. f_equal. lia.
Qed.

Lemma calculate_next_occurrence_monthly (t : datetime) :
  calculate_next_occurrence t (Some "monthly")
  = bind (replace_day 1 t)
      (fun first => bind (add_days 32 first) (replace_day (day t))).
Proof. reflexivity. Qed.

(** What [calculate_next_occurrence] does with "monthly": the same day of
    the next month when that month has such a day, [ValueError] when it
    has not. *)
Lemma monthly_next_occurrence (t : datetime) :
  valid t = true -> month t < 12 \/ year t < MAXYEAR ->
  calculate_next_occurrence t (Some "monthly")
  = if day t <=? days_in_month (next_month (year t) (month t)).1
                               (next_month (year t) (month t)).2
    then Ok (with_date (next_month (year t) (month t)).1
                       (next_month (year t) (month t)).2 (day t) t)
    else Raise ValueError.
Proof.
  intros Hv Hy. destruct t as [y m d h mi s us].
  unfold valid, check_date_fields, MAXYEAR in Hv.
  cbn [year month day hour minute second microsecond] in *.
  repeat (apply andb_prop in Hv as [Hv ?]).
  assert (Hm : 1 <= m <= 12) by lia.
  assert (Hdim := days_in_month_bounds y m Hm).
  rewrite calculate_next_occurrence_monthly. unfold replace_day at 1.
  cbn [year month day hour minute second microsecond].
  unfold check_date_fields at 1, MAXYEAR.
  replace ((1 <=? y) && (y <=? 9999) && (1 <=? m) && (m <=? 12)
           && (1 <=? 1) && (1 <=? days_in_month y m)) with true
    by (symmetry; repeat (apply andb_true_intro; split); lia).
  cbn [bind]. unfold with_date at 1.
  cbn [year month day hour minute second microsecond].
  rewrite add_days_32_first by assumption.
  cbn [bind]. unfold replace_day, with_date, check_date_fields, MAXYEAR.
  cbn [year month day hour minute second microsecond].
  assert (Hnm : 1 <= (next_month y m).1 <= 9999 /\ 1 <= (next_month y m).2 <= 12).
  { unfold next_month, MAXYEAR in *. destruct (Z.ltb_spec m 12); simpl; lia. }
  replace ((1 <=? (next_month y m).1) && ((next_month y m).1 <=? 9999)
           && (1 <=? (next_month y m).2) && ((next_month y m).2 <=? 12)
           && (1 <=? d)) with true
    by (symmetry; repeat (apply andb_true_intro; split); lia).
  reflexivity.
Qed.

(** Days 1 to 28 exist in every month: these always roll over. *)
Lemma monthly_rolls_over_up_to_28 (t : datetime) :
  valid t = true -> month t < 12 \/ year t < MAXYEAR -> day t <= 28 ->
  calculate_next_occurrence t (Some "monthly")
  = Ok (with_date (next_month (year t) (month t)).1
                  (next_month (year t) (month t)).2 (day t) t).
Proof.
  intros Hv Hy Hd. rewrite monthly_next_occurrence by assumption.
  assert (Hnm : 1 <= (next_month (year t) (month t)).2 <= 12).
  { unfold valid, check_date_fields in Hv.
    repeat (apply andb_prop in Hv as [Hv ?]).
    unfold next_month. destruct (Z.ltb_spec (month t) 12); simpl; lia. }
  pose proof (days_in_month_bounds (next_month (year t) (month t)).1 _ Hnm).
  destruct (Z.leb_spec (day t)
    (days_in_month (next_month (year t) (month t)).1 (next_month (year t) (month t)).2));
    [reflexivity | lia].
Qed.

(** C2. The next occurrence of a monthly task due 2024-01-31 is not a
    February date: [replace(day=31)] on 2024-02-02 raises [ValueError], and
    the exception leaves the scan with the due date as it was. *)
Theorem monthly_jan_31_raises :
  calculate_next_occurrence (Sample.midnight 2024 1 31) (Some "monthly")
  = Raise ValueError
  /\ Sample.scan (Sample.midnight 2024 2 1) Sample.monthly_store
     = (Sample.monthly_store, Raised ValueError).
Proof. split; vm_compute; reflexivity. Qed.

(** ** Retrieval by the scan *)

(** C4. The query of the scan, [get_tasks({"recurrence": True})], selects
    every row of the table: [get_tasks] has no block for the [recurrence]
    key. On a store whose only task has no recurrence it returns that
    task. *)
Theorem scan_query_retrieves_every_task :
  (forall db r, r ∈ get_tasks db recurring Due_date false <-> r ∈ tasks db)
  /\ Task.recurrence (Sample.task "t-plain" (Some "2024-01-05") None "home" "alice") = None
  /\ get_tasks Sample.plain_store recurring Due_date false
     = [Sample.task "t-plain" (Some "2024-01-05") None "home" "alice"].
Proof.
  split; [|split; reflexivity].
  intros db r. by rewrite get_tasks_recurring.
Qed.

(** ** Updates *)

Lemma update_rows_no_match (task_id : sqlval) (updates : gmap string sqlval)
    (ts : list Task.row) :
  (forall r, r ∈ ts -> sql_eq (Task.id r) task_id = false) ->
  update_rows task_id updates ts = ts.
Proof.
  intros H. unfold update_rows. apply map_unchanged.
  intros r Hr. by rewrite H.
Qed.

(** An UPDATE that matches no row is not an error: with a patch that
    prepares, [update_task] returns [True] and the table is as before. *)
Lemma update_task_no_match (db : database) (task_id : sqlval)
    (updates : gmap string sqlval) :
  unique_ids (tasks db) -> set_clause_ok updates = true ->
  (forall r, r ∈ tasks db -> sql_eq (Task.id r) task_id = false) ->
  update_task db task_id updates = (db, true).
Proof.
  intros Hu Hs Hno. unfold update_task, update_allowed.
  rewrite update_rows_no_match by assumption.
  rewrite Hs. simpl.
  assert (Hall : forallb
    (fun r => negb (sql_eq (Task.id r) task_id) || Task.constraints (patched updates r))
    (tasks db) = true).
  { apply forallb_forall. intros r Hr%list_elem_of_In. by rewrite Hno. }
  rewrite Hall. unfold unique_idsb. rewrite bool_decide_eq_true_2 by assumption.
  simpl. by rewrite with_tasks_same.
Qed.

(** C5. [update_task] on an id that no task has, with the non-empty patch
    [{"status": "completed"}], returns [True], not [False]: it never
    looks at the number of rows the UPDATE matched. *)
Theorem update_task_missing_id_returns_true :
  (forall r, r ∈ tasks Sample.daily_store -> Task.id r <> Some "no-such-id")
  /\ update_task Sample.daily_store (Some "no-such-id")
       {["status" := Some "completed"]}
     = (Sample.daily_store, true).
Proof.
  split; [|vm_compute; reflexivity].
  intros r Hr. apply list_elem_of_singleton in Hr as ->. discriminate.
Qed.

(** ** The overdue post-filter *)

Lemma truthy_true (v : option string) :
  truthy v = true <-> exists s, v = Some s /\ s <> "".
Proof.
  unfold truthy. destruct v as [[|c s0]|]; split; try discriminate.
  - intros (s & [= <-] & Hs). congruence.
  - intros _. eexists. split; [reflexivity | discriminate].
  - reflexivity.
  - intros (s & [=] & _).
Qed.

Lemma string_ltb_lt (a b : string) :
  String.ltb a b = true <-> (a ?= b)%string = Lt.
Proof. unfold String.ltb. destruct (a ?= b)%string; split; congruence. Qed.

(** The [--overdue] post-filter keeps a task exactly when its due date
    is set (neither NULL nor empty), its text is strictly before the text
    [now] in the order of strings, and its status is not "completed"; a
    task without due date is never kept. *)
Lemma overdue_filter_iff (now : string) (ts : list Task.row) (t : Task.row) :
  (t ∈ overdue_filter now ts
   <-> t ∈ ts
       /\ (exists d, Task.due_date t = Some d /\ d <> "" /\ (d ?= now)%string = Lt)
       /\ Task.status t <> Some "completed")
  /\ (Task.due_date t = None -> t ∉ overdue_filter now ts).
Proof.
  assert (Hiff : is_overdue now t = true
    <-> (exists d, Task.due_date t = Some d /\ d <> "" /\ (d ?= now)%string = Lt)
        /\ Task.status t <> Some "completed").
  { unfold is_overdue. rewrite !andb_true_iff, truthy_true, negb_true_iff,
      bool_decide_eq_false.
    destruct (Task.due_date t) as [d|]; split.
    - intros [[(s & [= <-] & Hs) Hlt%string_ltb_lt] Hst]. eauto 10.
    - intros [(d' & [= <-] & Hs & Hlt) Hst].
      rewrite string_ltb_lt. eauto 10.
    - intros [[_ [=]] _].
    - intros [(d' & [=] & _) _]. }
  unfold overdue_filter. rewrite list_elem_of_filter, Hiff. split; [tauto|].
  intros Hnone [[(d & Hd & _) _] _]. congruence.
Qed.

(** C9. The [--overdue] post-filter compares the text of the due date
    with the ISO text of the current time, not the two times (as
    [get_user_productivity] and the recurrence scan do, which parse the
    due date). A pending task due on 2024-01-05 at 13:00, stored as
    "2024-01-05 13:00:00", is listed as overdue at 12:00 of that day, an
    hour before it is due; one due on "2024-01-05", which is midnight, is
    listed at that very midnight, when its due date is not strictly
    earlier than the current time; and one stored with the text
    "2024-1-5", which [cli.add] accepts, is not listed on 2024-03-01. *)
Theorem overdue_filter_compares_text :
  let noon := mkdatetime 2024 1 5 12 0 0 0 in
  let one_pm := mkdatetime 2024 1 5 13 0 0 0 in
  let march := mkdatetime 2024 3 1 9 0 0 0 in
  let due_at_one := Sample.task "t-1" (Some "2024-01-05 13:00:00") None "" "alice" in
  let due_at_midnight := Sample.task "t-2" (Some "2024-01-05") None "" "alice" in
  let due_in_january := Sample.task "t-3" (Some "2024-1-5") None "" "alice" in
  (Iso.fromisoformat "2024-01-05 13:00:00" = Some one_pm
   /\ earlier one_pm noon = false
   /\ Iso.isoformat noon = "2024-01-05T12:00:00"
   /\ overdue_filter (Iso.isoformat noon) [due_at_one] = [due_at_one])
  /\ (Iso.fromisoformat "2024-01-05" = Some (Sample.midnight 2024 1 5)
      /\ earlier (Sample.midnight 2024 1 5) (Sample.midnight 2024 1 5) = false
      /\ Iso.isoformat (Sample.midnight 2024 1 5) = "2024-01-05T00:00:00"
      /\ overdue_filter (Iso.isoformat (Sample.midnight 2024 1 5)) [due_at_midnight]
         = [due_at_midnight])
  /\ (Iso.isoformat march = "2024-03-01T09:00:00"
      /\ overdue_filter (Iso.isoformat march) [due_in_january] = []).
Proof. repeat split; vm_compute; reflexivity. Qed.

(** ** The schema is an invariant

    A table that satisfies the schema still does after each operation of
    the store (and after a scan, see [scan_rows]). *)

Lemma update_task_well_formed (db : database) (task_id : sqlval)
    (updates : gmap string sqlval) :
  well_formed db -> well_formed (update_task db task_id updates).1.
Proof.
  intros [Hu Hc]. unfold update_task.
  destruct (set_clause_ok updates && update_allowed task_id updates (tasks db)) eqn:E;
    [|by split].
  apply andb_prop in E as [_ [Hrows Huniq]%andb_prop].
  split; simpl.
  - by apply bool_decide_eq_true in Huniq.
  - unfold update_rows. apply forallb_forall. intros r' Hr'%list_elem_of_In.
    apply list_elem_of_fmap in Hr' as (r & -> & Hr).
    rewrite forallb_forall in Hrows, Hc.
    apply list_elem_of_In in Hr.
    specialize (Hrows r Hr). specialize (Hc r Hr).
    destruct (sql_eq (Task.id r) task_id); [exact Hrows | exact Hc].
Qed.

Lemma assign_task_well_formed (db : database) (task_id assigner assignee : string) :
  well_formed db -> well_formed (assign_task db task_id assigner assignee).1.
Proof.
  intros [Hu Hc]. unfold assign_task. destruct (negb _); [by split|].
  split; simpl.
  - unfold unique_ids in *.
    replace (omap Task.id _) with (omap Task.id (tasks db)); [assumption|].
    clear Hu Hc. induction (tasks db) as [|r l IH]; [reflexivity|].
    cbn [map omap list_omap]. rewrite IH.
    destruct (owned_by task_id assigner r); reflexivity.
  - rewrite forallb_forall in Hc. apply forallb_forall.
    intros r' Hr'%list_elem_of_In.
    apply list_elem_of_fmap in Hr' as (r & -> & Hr%list_elem_of_In).
    specialize (Hc r Hr). by destruct (owned_by task_id assigner r).
Qed.

Lemma omap_sublist {A B : Type} (f : A -> option B) (l1 l2 : list A) :
  l1 `sublist_of` l2 -> omap f l1 `sublist_of` omap f l2.
Proof.
  induction 1 as [|x l1 l2 _ IH|x l1 l2 _ IH]; cbn [omap list_omap].
  - constructor.
  - destruct (f x); [by constructor | assumption].
  - destruct (f x); [by constructor | assumption].
Qed.

Lemma delete_task_well_formed (db : database) (task_id : sqlval) :
  well_formed db -> well_formed (delete_task db task_id).1.
Proof.
  intros [Hu Hc]. split; simpl.
  - unfold unique_ids in *. eapply sublist_NoDup; [exact Hu|].
    apply omap_sublist, sublist_filter.
  - rewrite forallb_forall in Hc. apply forallb_forall.
    intros r Hr%list_elem_of_In. apply list_elem_of_filter in Hr as [_ Hr].
    apply Hc. by apply list_elem_of_In.
Qed.

(** DELETE removes the rows of that id and no other. *)
Lemma delete_task_elem_of (db : database) (task_id : sqlval) (r : Task.row) :
  r ∈ tasks (delete_task db task_id).1
  <-> r ∈ tasks db /\ sql_eq (Task.id r) task_id = false.
Proof. unfold delete_task. simpl. rewrite list_elem_of_filter. tauto. Qed.

(** ** The recurrence scan *)

Lemma patched_row_dict (v : sqlval) (task r : Task.row) :
  patched (<["due_date" := v]> (row_dict task)) r = Task.set_due_date v task.
Proof. reflexivity. Qed.

Lemma set_clause_ok_row_dict (v : sqlval) (task : Task.row) :
  set_clause_ok (<["due_date" := v]> (row_dict task)) = true.
Proof.
  unfold set_clause_ok. apply andb_true_intro. split.
  - apply negb_true_iff, bool_decide_eq_false, insert_non_empty.
  - apply bool_decide_eq_true. apply map_Forall_insert_2; [reflexivity|].
    unfold row_dict. simpl.
    repeat (apply map_Forall_insert_2; [reflexivity|]).
    apply map_Forall_empty.
Qed.

Lemma unique_ids_cons (r : Task.row) (ts : list Task.row) :
  unique_ids (r :: ts)
  <-> (forall x, Task.id r = Some x -> forall r', r' ∈ ts -> Task.id r' <> Some x)
      /\ unique_ids ts.
Proof.
  unfold unique_ids. simpl. destruct (Task.id r) as [x|] eqn:Hid.
  - rewrite NoDup_cons, list_elem_of_omap. split.
    + intros [Hnot Hnd]. split; [|assumption].
      intros y [= <-] r' Hr' Hid'. apply Hnot. eauto.
    + intros [Hnot Hnd]. split; [|assumption].
      intros (r' & Hr' & Hid'). by eapply Hnot.
  - split; [intros Hnd; split; [discriminate | assumption] | tauto].
Qed.

Lemma unique_ids_same (ts : list Task.row) (r1 r2 : Task.row) (x : string) :
  unique_ids ts -> r1 ∈ ts -> r2 ∈ ts ->
  Task.id r1 = Some x -> Task.id r2 = Some x -> r1 = r2.
Proof.
  induction ts as [|r ts IH]; intros Hu H1 H2 Hx1 Hx2.
  - by apply elem_of_nil in H1.
  - apply unique_ids_cons in Hu as [Hhead Hu].
    apply elem_of_cons in H1 as [->|H1], H2 as [->|H2].
    + reflexivity.
    + exfalso. by eapply Hhead.
    + exfalso. by eapply Hhead.
    + by apply IH.
Qed.

Lemma roll_rows_ids (task_id v : sqlval) (ts : list Task.row) :
  omap Task.id (roll_rows task_id v ts) = omap Task.id ts.
Proof.
  unfold roll_rows. induction ts as [|r ts IH]; [reflexivity|].
  cbn [map omap list_omap]. rewrite IH.
  by destruct (sql_eq (Task.id r) task_id).
Qed.

Lemma roll_rows_constraints (task_id v : sqlval) (ts : list Task.row) :
  forallb Task.constraints (roll_rows task_id v ts) = forallb Task.constraints ts.
Proof.
  unfold roll_rows. induction ts as [|r ts IH]; [reflexivity|].
  cbn [map forallb]. rewrite IH.
  by destruct (sql_eq (Task.id r) task_id).
Qed.

(** The UPDATE of the scan: it is given the whole row back with a new
    [due_date], so on the row of that id it changes [due_date] alone. *)
Lemma update_task_due_date (db : database) (task : Task.row) (v : sqlval) :
  well_formed db -> (Task.id task <> None -> task ∈ tasks db) ->
  update_task db (Task.id task) (<["due_date" := v]> (row_dict task))
  = (with_tasks db (roll_rows (Task.id task) v (tasks db)), true).
Proof.
  intros [Hu Hc] Hin.
  assert (Hrows : update_rows (Task.id task) (<["due_date" := v]> (row_dict task)) (tasks db)
                  = roll_rows (Task.id task) v (tasks db)).
  { unfold update_rows, roll_rows. apply map_ext_in. intros r Hr%list_elem_of_In.
    destruct (sql_eq (Task.id r) (Task.id task)) eqn:He; [|reflexivity].
    rewrite patched_row_dict. apply sql_eq_true in He as (x & Hx & Hx').
    f_equal. eapply unique_ids_same; eauto. apply Hin. congruence. }
  unfold update_task, update_allowed. rewrite Hrows, set_clause_ok_row_dict.
  unfold unique_idsb. rewrite roll_rows_ids, bool_decide_eq_true_2 by assumption.
  assert (Hall : forallb
      (fun r => negb (sql_eq (Task.id r) (Task.id task))
                || Task.constraints (patched (<["due_date" := v]> (row_dict task)) r))
      (tasks db) = true).
  { apply forallb_forall. intros r Hr%list_elem_of_In.
    destruct (sql_eq (Task.id r) (Task.id task)) eqn:He; [|reflexivity].
    rewrite patched_row_dict. simpl.
    apply sql_eq_true in He as (x & Hx & Hx').
    assert (Htask : task ∈ tasks db) by (apply Hin; congruence).
    rewrite forallb_forall in Hc. apply (Hc task). by apply list_elem_of_In. }
  rewrite Hall. reflexivity.
Qed.

Lemma roll_rows_well_formed (db : database) (task_id v : sqlval) :
  well_formed db -> well_formed (with_tasks db (roll_rows task_id v (tasks db))).
Proof.
  intros [Hu Hc]. split; simpl.
  - unfold unique_ids. by rewrite roll_rows_ids.
  - by rewrite roll_rows_constraints.
Qed.

Lemma roll_rows_other (task_id v : sqlval) (ts : list Task.row) (t : Task.row) :
  t ∈ ts -> sql_eq (Task.id t) task_id = false -> t ∈ roll_rows task_id v ts.
Proof.
  intros Ht He. unfold roll_rows. apply list_elem_of_fmap.
  exists t. by rewrite He.
Qed.

Lemma Forall2_map_graph {A : Type} (f : A -> A) (l : list A) :
  Forall2 (fun x y => x ∈ l /\ y = f x) l (map f l).
Proof.
  induction l as [|a l IH]; simpl; constructor.
  - split; [left | reflexivity].
  - eapply Forall2_impl; [exact IH|]. intros x y [Hx ->]. split; [by right | reflexivity].
Qed.

Lemma Forall2_diag {A : Type} (R : A -> A -> Prop) (l : list A) :
  (forall x, R x x) -> Forall2 R l l.
Proof. intros H. induction l; constructor; auto. Qed.

Lemma rolled_elapsed fromisoformat isoformat now (r r' : Task.row) :
  rolled fromisoformat isoformat now r r' -> elapsed fromisoformat now r = true.
Proof.
  intros (text & due & next & Hdue & Hne & Hparse & Hle & _).
  unfold elapsed. rewrite Hdue. destruct text; [done|]. by rewrite Hparse.
Qed.

Section ScanProperties.

Variable fromisoformat : string -> option datetime.
Variable isoformat : datetime -> string.
Variable now : datetime.

Abbreviation loop := (scan_loop fromisoformat isoformat now).
Abbreviation run_scan := (check_and_update_recurring_tasks fromisoformat isoformat now).
Abbreviation rolled_over := (rolled fromisoformat isoformat now).
Abbreviation scanned_row := (scanned fromisoformat isoformat now).

Lemma scan_loop_rows (fetched : list Task.row) (db : database) :
  well_formed db -> unique_ids fetched ->
  (forall t, t ∈ fetched -> Task.id t <> None -> t ∈ tasks db) ->
  well_formed (loop fetched db).1
  /\ users (loop fetched db).1 = users db
  /\ Forall2 (fun r r' => r' = r \/ (r ∈ fetched /\ Task.id r <> None /\ rolled_over r r'))
       (tasks db) (tasks (loop fetched db).1).
Proof.
  revert db. induction fetched as [|task rest IH]; intros db Hwf Hnd Hin.
  { simpl. repeat split; try apply Hwf. apply Forall2_diag. auto. }
  apply unique_ids_cons in Hnd as [Hhead Hnd].
  assert (Hskip : well_formed (loop rest db).1
    /\ users (loop rest db).1 = users db
    /\ Forall2 (fun r r' => r' = r \/ (r ∈ task :: rest /\ Task.id r <> None
                                        /\ rolled_over r r'))
         (tasks db) (tasks (loop rest db).1)).
  { destruct (IH db Hwf Hnd) as (Hwf' & Hus & Hrows).
    - intros t Ht. apply Hin. by right.
    - repeat split; try apply Hwf'; try assumption.
      eapply Forall2_impl; [exact Hrows|].
      intros r r' [->|[Hr Hroll]]; [by left|right]. split; [by right|assumption]. }
  assert (Hstop : forall e,
    well_formed (db, Raised e).1 /\ users (db, Raised e).1 = users db
    /\ Forall2 (fun r r' => r' = r \/ (r ∈ task :: rest /\ Task.id r <> None
                                        /\ rolled_over r r'))
         (tasks db) (tasks (db, Raised e).1)).
  { intros e. simpl. repeat split; try apply Hwf. apply Forall2_diag. auto. }
  cbn [scan_loop].
  destruct (Task.due_date task) as [[|c text]|] eqn:Hdue; try exact Hskip.
  destruct (fromisoformat (String c text)) as [due|] eqn:Hparse; [|apply Hstop].
  destruct (Calendar.leb due now) eqn:Hle; [|exact Hskip].
  destruct (calculate_next_occurrence due (Task.recurrence task)) as [next|e] eqn:Hnext;
    [|apply Hstop].
  rewrite update_task_due_date; [|assumption|intros ?; apply Hin; [by left|assumption]].
  cbn [fst].
  set (v := Some (isoformat next)).
  set (db1 := with_tasks db (roll_rows (Task.id task) v (tasks db))).
  destruct (IH db1) as (Hwf' & Hus & Hrows).
  - by apply roll_rows_well_formed.
  - assumption.
  - intros t Ht Hid. apply roll_rows_other; [apply Hin; [by right|assumption]|].
    destruct (sql_eq (Task.id t) (Task.id task)) eqn:He; [|reflexivity].
    apply sql_eq_true in He as (x & Hx & Hx'). exfalso. by eapply Hhead.
  - repeat split; try apply Hwf'; try assumption.
    eapply Forall2_trans;
      [|apply (Forall2_map_graph
                 (fun r => if sql_eq (Task.id r) (Task.id task)
                           then Task.set_due_date v r else r) (tasks db))
       |exact Hrows].
    intros r r1 r' [Hr ->] Hr'. cbv beta in Hr'.
    destruct (sql_eq (Task.id r) (Task.id task)) eqn:He.
    + apply sql_eq_true in He as (x & Hx & Hx').
      assert (Htask : task ∈ tasks db) by (apply Hin; [by left | congruence]).
      assert (r = task) as ->
        by (apply (unique_ids_same (tasks db) r task x); auto; apply Hwf).
      destruct Hr' as [->|[Hrest _]].
      * right. split; [by left|]. split; [congruence|].
        exists (String c text), due, next. repeat split; try assumption. discriminate.
      * exfalso. eapply (Hhead x Hx' _ Hrest). exact Hx.
    + destruct Hr' as [->|[Hrest Hroll]]; [by left|right].
      split; [by right|assumption].
Qed.

(** One scan leaves the users alone and does to each row of the table
    nothing or one rollover, whether it returns or raises; the table it
    leaves satisfies the schema again. *)
Lemma scan_rows (db : database) :
  well_formed db ->
  well_formed (run_scan db).1
  /\ users (run_scan db).1 = users db
  /\ Forall2 scanned_row (tasks db) (tasks (run_scan db).1).
Proof.
  intros Hwf. unfold check_and_update_recurring_tasks.
  pose proof (get_tasks_recurring db Due_date false) as Hperm.
  destruct (scan_loop_rows (get_tasks db recurring Due_date false) db Hwf)
    as (Hwf' & Hus & Hrows).
  - unfold unique_ids. rewrite Hperm. apply Hwf.
  - intros t Ht _. by rewrite <- Hperm.
  - repeat split; try apply Hwf'; try assumption.
    eapply Forall2_impl; [exact Hrows|].
    intros r r' [->|[_ Hroll]]; [by left | by right].
Qed.

Abbreviation elapsed_now := (elapsed fromisoformat now).
Abbreviation can_roll_now := (can_roll fromisoformat now).

Lemma scan_loop_returns (fetched : list Task.row) (db : database) :
  well_formed db -> unique_ids fetched ->
  (forall t, t ∈ fetched -> Task.id t <> None -> t ∈ tasks db) ->
  (forall t, t ∈ fetched -> can_roll_now t) ->
  (loop fetched db).2 = Returned
  /\ forall t x, t ∈ fetched -> Task.id t = Some x -> elapsed_now t = true ->
     exists t', rolled_over t t' /\ t' ∈ tasks (loop fetched db).1.
Proof.
  revert db. induction fetched as [|task rest IH]; intros db Hwf Hnd Hin Hcan.
  { split; [reflexivity|]. intros t x Ht. by apply elem_of_nil in Ht. }
  apply unique_ids_cons in Hnd as [Hhead Hnd].
  assert (Hskip : elapsed_now task = false ->
    (loop rest db).2 = Returned
    /\ forall t x, t ∈ task :: rest -> Task.id t = Some x -> elapsed_now t = true ->
       exists t', rolled_over t t' /\ t' ∈ tasks (loop rest db).1).
  { intros Hnot. destruct (IH db Hwf Hnd) as [Hret Hrolled].
    - intros t Ht. apply Hin. by right.
    - intros t Ht. apply Hcan. by right.
    - split; [assumption|]. intros t x [->|Ht]%elem_of_cons Hx He; [congruence|].
      by apply (Hrolled t x). }
  pose proof (Hcan task (list_elem_of_here _ _)) as Hcan_task.
  unfold can_roll in Hcan_task. unfold elapsed in Hskip.
  cbn [scan_loop].
  destruct (Task.due_date task) as [[|c text]|] eqn:Hdue; try (by apply Hskip).
  destruct Hcan_task as (due & Hparse & Hnext). rewrite Hparse in *.
  destruct (Calendar.leb due now) eqn:Hle; [|by apply Hskip].
  destruct (Hnext eq_refl) as (next & Hcalc). rewrite Hcalc.
  rewrite update_task_due_date; [|assumption|intros ?; apply Hin; [by left|assumption]].
  cbn [fst].
  set (v := Some (isoformat next)).
  set (db1 := with_tasks db (roll_rows (Task.id task) v (tasks db))).
  assert (Hwf1 : well_formed db1) by by apply roll_rows_well_formed.
  assert (Hin1 : forall t, t ∈ rest -> Task.id t <> None -> t ∈ tasks db1).
  { intros t Ht Hid. apply roll_rows_other; [apply Hin; [by right|assumption]|].
    destruct (sql_eq (Task.id t) (Task.id task)) eqn:He; [|reflexivity].
    apply sql_eq_true in He as (x & Hx & Hx'). exfalso. by eapply Hhead. }
  destruct (IH db1 Hwf1 Hnd Hin1) as [Hret Hrolled].
  { intros t Ht. apply Hcan. by right. }
  split; [assumption|].
  intros t x [->|Ht]%elem_of_cons Hx He; [|by apply (Hrolled t x)].
  exists (Task.set_due_date v task). split.
  - exists (String c text), due, next. repeat split; try assumption. discriminate.
  - assert (Hthere : Task.set_due_date v task ∈ tasks db1).
    { unfold db1, roll_rows. simpl. apply list_elem_of_fmap. exists task.
      split; [|apply Hin; [by left | congruence]].
      assert (sql_eq (Task.id task) (Task.id task) = true) as ->
        by (apply sql_eq_true; eauto).
      reflexivity. }
    destruct (scan_loop_rows rest db1 Hwf1 Hnd Hin1) as (_ & _ & Hrows).
    apply list_elem_of_lookup in Hthere as [i Hi].
    destruct (Forall2_lookup_l _ _ _ _ _ Hrows Hi) as (r' & Hr' & [->|[Hrest _]]).
    + apply list_elem_of_lookup. eauto.
    + exfalso. by eapply (Hhead x Hx _ Hrest).
Qed.

(** When nothing raises, the scan returns, and it has rolled over every
    task whose due date had elapsed (a row with a NULL id apart, which no
    UPDATE reaches) and left the others as they were. *)
Lemma scan_returns (db : database) :
  well_formed db -> (forall t, t ∈ tasks db -> can_roll_now t) ->
  (run_scan db).2 = Returned
  /\ Forall2 (fun r r' => if elapsed_now r && bool_decide (is_Some (Task.id r))
                          then rolled_over r r' else r' = r)
       (tasks db) (tasks (run_scan db).1).
Proof.
  intros Hwf Hcan.
  pose proof (get_tasks_recurring db Due_date false) as Hperm.
  destruct (scan_rows db Hwf) as (Hwf' & _ & Hrows).
  unfold check_and_update_recurring_tasks in *.
  destruct (scan_loop_returns (get_tasks db recurring Due_date false) db Hwf)
    as [Hret Hrolled].
  - unfold unique_ids. rewrite Hperm. apply Hwf.
  - intros t Ht _. by rewrite <- Hperm.
  - intros t Ht. apply Hcan. by rewrite <- Hperm.
  - split; [assumption|].
    apply Forall2_same_length_lookup. split; [by eapply Forall2_length|].
    intros i r r' Hr Hr'.
    destruct (Forall2_lookup_l _ _ _ _ _ Hrows Hr) as (r2 & Hr2 & Hsc).
    assert (r2 = r') as -> by congruence.
    destruct (elapsed_now r) eqn:He; cbn [andb].
    + case_bool_decide as Hid.
      * destruct Hid as [x Hx].
        destruct (Hrolled r x) as (t' & Hroll & Ht'); try assumption.
        { rewrite Hperm. apply list_elem_of_lookup. eauto. }
        destruct Hsc as [->|[_ Hsc]]; [|assumption].
        assert (t' = r) as <-; [|assumption].
        apply (unique_ids_same (tasks (loop (get_tasks db recurring Due_date false) db).1)
                 t' r x); try assumption.
        -- apply Hwf'.
        -- apply list_elem_of_lookup. eauto.
        -- destruct Hroll as (? & ? & ? & _ & _ & _ & _ & _ & ->). exact Hx.
      * destruct Hsc as [->|[Hsome _]]; [reflexivity|].
        destruct (Task.id r) eqn:Hx; [|done]. exfalso. apply Hid. eauto.
    + destruct Hsc as [->|[_ Hsc]]; [reflexivity|].
      apply rolled_elapsed in Hsc. congruence.
Qed.

End ScanProperties.

Lemma well_formed_dec (db : database) :
  unique_idsb (tasks db) && forallb Task.constraints (tasks db) = true ->
  well_formed db.
Proof.
  intros [Hu Hc]%andb_prop. split; [|assumption].
  by apply bool_decide_eq_true in Hu.
Qed.

Lemma rolled_same_but_due_date fromisoformat isoformat now (r r' : Task.row) :
  scanned fromisoformat isoformat now r r' -> same_but_due_date r r'.
Proof.
  intros [->|[_ (text & due & next & _ & _ & _ & _ & _ & ->)]];
    repeat split; reflexivity.
Qed.

(** C8. On a table that satisfies its schema, a scan leaves the users
    alone and, in every task, every field but [due_date] with the value
    it had: id, title, description, priority, status, tags, recurrence,
    created_at, created_by and assigned_to. *)
Theorem scan_changes_only_due_date
    (fromisoformat : string -> option datetime) (isoformat : datetime -> string)
    (now : datetime) (db : database) :
  well_formed db ->
  users (check_and_update_recurring_tasks fromisoformat isoformat now db).1 = users db
  /\ Forall2 same_but_due_date (tasks db)
       (tasks (check_and_update_recurring_tasks fromisoformat isoformat now db).1).
Proof.
  intros Hwf.
  destruct (scan_rows fromisoformat isoformat now db Hwf) as (_ & Hus & Hrows).
  split; [assumption|].
  eapply Forall2_impl; [exact Hrows|].
  intros r r'. apply rolled_same_but_due_date.
Qed.

Lemma scan_changes_only_due_date_witness :
  well_formed Sample.daily_store
  /\ users (Sample.scan (Sample.midnight 2024 1 10) Sample.daily_store).1
     = users Sample.daily_store
  /\ Forall2 same_but_due_date (tasks Sample.daily_store)
       (tasks (Sample.scan (Sample.midnight 2024 1 10) Sample.daily_store).1).
Proof.
  split; [apply well_formed_dec; reflexivity|].
  apply (scan_changes_only_due_date Iso.fromisoformat Iso.isoformat
           (Sample.midnight 2024 1 10) Sample.daily_store).
  apply well_formed_dec; reflexivity.
Defined.

(** C3, as the code has it. On a table that satisfies its schema, take
    a task as the first scan leaves it. If its due date is absent or later
    than [now], a second scan at the same [now] leaves the task as it is.
    If its due date is still not after [now], the second scan rolls the
    task over again, provided that scan raises on no task. *)
Theorem second_scan_settled_or_rolled_again
    (fromisoformat : string -> option datetime) (isoformat : datetime -> string)
    (now : datetime) (db : database) (i : nat) (r1 : Task.row) :
  well_formed db ->
  tasks (check_and_update_recurring_tasks fromisoformat isoformat now db).1 !! i = Some r1 ->
  (elapsed fromisoformat now r1 = false ->
   tasks (check_and_update_recurring_tasks fromisoformat isoformat now
            (check_and_update_recurring_tasks fromisoformat isoformat now db).1).1 !! i
   = Some r1)
  /\ (elapsed fromisoformat now r1 = true -> is_Some (Task.id r1) ->
      (forall t,
         t ∈ tasks (check_and_update_recurring_tasks fromisoformat isoformat now db).1 ->
         can_roll fromisoformat now t) ->
      (check_and_update_recurring_tasks fromisoformat isoformat now
         (check_and_update_recurring_tasks fromisoformat isoformat now db).1).2 = Returned
      /\ exists r2,
           tasks (check_and_update_recurring_tasks fromisoformat isoformat now
                    (check_and_update_recurring_tasks fromisoformat isoformat now db).1).1
             !! i = Some r2
           /\ rolled fromisoformat isoformat now r1 r2).
Proof.
  intros Hwf Hi.
  destruct (scan_rows fromisoformat isoformat now db Hwf) as (Hwf1 & _ & _).
  split.
  - intros Hsettled.
    destruct (scan_rows fromisoformat isoformat now _ Hwf1) as (_ & _ & Hrows).
    destruct (Forall2_lookup_l _ _ _ _ _ Hrows Hi) as (r2 & Hr2 & [->|[_ Hroll]]);
      [assumption|].
    apply rolled_elapsed in Hroll. congruence.
  - intros Hel Hid Hcan.
    destruct (scan_returns fromisoformat isoformat now _ Hwf1 Hcan) as [Hret Hrows].
    split; [assumption|].
    destruct (Forall2_lookup_l _ _ _ _ _ Hrows Hi) as (r2 & Hr2 & Hroll).
    exists r2. split; [assumption|].
    rewrite Hel, bool_decide_eq_true_2 in Hroll by assumption. exact Hroll.
Qed.

Lemma second_scan_settled_or_rolled_again_witness :
  let now := Sample.midnight 2024 1 10 in
  let r1 := Sample.task "t-daily" (Some "2024-01-02T00:00:00") (Some "daily") "work" "alice" in
  let r2 := Sample.task "t-daily" (Some "2024-01-03T00:00:00") (Some "daily") "work" "alice" in
  let s1 := (Sample.scan now Sample.daily_store).1 in
  well_formed Sample.daily_store
  /\ tasks s1 !! 0%nat = Some r1
  /\ elapsed Iso.fromisoformat now r1 = true
  /\ (Sample.scan now s1).2 = Returned
  /\ tasks (Sample.scan now s1).1 !! 0%nat = Some r2
  /\ rolled Iso.fromisoformat Iso.isoformat now r1 r2.
Proof.
  intros now r1 r2 s1.
  assert (Hwf : well_formed Sample.daily_store) by (apply well_formed_dec; reflexivity).
  assert (H1 : tasks s1 !! 0%nat = Some r1) by reflexivity.
  assert (Hel : elapsed Iso.fromisoformat now r1 = true) by reflexivity.
  assert (Hid : is_Some (Task.id r1)) by (eexists; reflexivity).
  assert (Hcan : forall t, t ∈ tasks s1 -> can_roll Iso.fromisoformat now t).
  { assert (Hs1 : tasks s1 = [r1]) by reflexivity.
    intros t Ht. rewrite Hs1 in Ht. apply list_elem_of_singleton in Ht as ->.
    exists (Sample.midnight 2024 1 2). split; [reflexivity|].
    intros _. eexists. reflexivity. }
  split; [exact Hwf|]. split; [exact H1|]. split; [exact Hel|].
  destruct (second_scan_settled_or_rolled_again Iso.fromisoformat Iso.isoformat now
              Sample.daily_store 0 r1 Hwf H1) as [_ Hagain].
  destruct (Hagain Hel Hid Hcan) as (Hret & r & Hr & Hroll).
  split; [exact Hret|].
  assert (Some r = Some r2) as [= ->] by (rewrite <- Hr; reflexivity).
  split; [exact Hr | exact Hroll].
Defined.

(** C3, counterexample. A daily task due 2024-01-01, scanned twice at
    2024-01-10: the first scan moves the due date to 2024-01-02, which is
    still not after [now], and the second moves it to 2024-01-03. *)
Lemma scan_twice_advances_twice :
  let now := Sample.midnight 2024 1 10 in
  let s0 := Sample.daily_store in
  let s1 := (Sample.scan now s0).1 in
  let s2 := (Sample.scan now s1).1 in
  due_dates s0 = [Some "2024-01-01"]
  /\ due_dates s1 = [Some "2024-01-02T00:00:00"]
  /\ due_dates s2 = [Some "2024-01-03T00:00:00"]
  /\ ~ (due_dates s1 = due_dates s0 \/ due_dates s2 = due_dates s1).
Proof.
  repeat split; try reflexivity.
  intros [H|H]; vm_compute in H; discriminate.
Qed.

(** ** Owner and id *)

Lemma lower_ascii (c : ascii) : lower (lower c) = lower c.
Proof.
  unfold lower.
  destruct ((65 <=? N_of_ascii c) && (N_of_ascii c <=? 90))%N eqn:E; [|by rewrite E].
  apply andb_true_iff in E as [E1 E2]. apply N.leb_le in E1, E2.
  rewrite N_ascii_embedding by lia.
  destruct ((65 <=? N_of_ascii c + 32) && (N_of_ascii c + 32 <=? 90))%N eqn:E'; [|done].
  apply andb_true_iff in E' as [_ E']. apply N.leb_le in E'. lia.
Qed.

Lemma eq_nocase_sym (a b : string) : eq_nocase a b = eq_nocase b a.
Proof.
  revert b. induction a as [|c a IH]; intros [|d b]; simpl; try reflexivity.
  rewrite IH. f_equal. apply Ascii.eqb_sym.
Qed.

Lemma eq_nocase_trans (a b c : string) :
  eq_nocase a b = true -> eq_nocase b c = true -> eq_nocase a c = true.
Proof.
  revert b c. induction a as [|x a IH]; intros [|y b] [|z c]; simpl; try done.
  intros [H1 H2]%andb_true_iff [H3 H4]%andb_true_iff.
  apply Ascii.eqb_eq in H1, H3. rewrite H1, H3, Ascii.eqb_refl. simpl. eauto.
Qed.

(** No two columns have the same name up to case: a key names at most
    one column. *)
Lemma names_one_column (k : string) (c c' : column) :
  names k c = true -> names k c' = true -> c = c'.
Proof.
  unfold names. intros H H'. rewrite eq_nocase_sym in H.
  pose proof (eq_nocase_trans _ _ _ H H') as E.
  destruct c, c'; try reflexivity; vm_compute in E; discriminate.
Qed.

Lemma assignments_nil (cs : list column) (updates : gmap string sqlval) (c : column) :
  names_only cs updates = true -> c ∉ cs -> assignments updates c = [].
Proof.
  unfold names_only, assignments. intros H Hc.
  induction (map_to_list updates) as [|kv l IH]; [reflexivity|].
  simpl in H. apply andb_true_iff in H as [Hkv Hl].
  rewrite filter_cons_False; [by apply IH|].
  intros Hn. apply existsb_exists in Hkv as (c' & Hin & Hn').
  apply Hc. rewrite (names_one_column _ _ _ Hn Hn'). by apply list_elem_of_In.
Qed.

Lemma update_task_identities (db : database) (task_id : sqlval)
    (updates : gmap string sqlval) :
  names_only other_columns updates = true ->
  identities (update_task db task_id updates).1 = identities db.
Proof.
  intros Hkeys. unfold update_task.
  destruct (set_clause_ok updates && update_allowed task_id updates (tasks db));
    [|reflexivity].
  unfold identities, update_rows. simpl. rewrite map_map. apply map_ext.
  intros r. destruct (sql_eq (Task.id r) task_id); [|reflexivity].
  unfold patched, patch_field. simpl.
  rewrite !(assignments_nil other_columns)
    by (done || (intros H%list_elem_of_In; simpl in H; intuition discriminate)).
  reflexivity.
Qed.

Lemma assign_task_identities (db : database) (task_id assigner assignee : string) :
  identities (assign_task db task_id assigner assignee).1 = identities db.
Proof.
  unfold assign_task. destruct (negb _); [reflexivity|].
  unfold identities. simpl. rewrite map_map. apply map_ext.
  intros r. by destruct (owned_by task_id assigner r).
Qed.

Lemma scan_identities fromisoformat isoformat now (db : database) :
  well_formed db ->
  identities (check_and_update_recurring_tasks fromisoformat isoformat now db).1
  = identities db.
Proof.
  intros Hwf.
  destruct (scan_rows fromisoformat isoformat now db Hwf) as (_ & _ & Hrows).
  unfold identities. induction Hrows as [|r r' l l' Hr _ IH]; [reflexivity|].
  simpl. rewrite IH.
  destruct (rolled_same_but_due_date _ _ _ _ _ Hr)
    as (-> & _ & _ & _ & _ & _ & _ & _ & -> & _).
  reflexivity.
Qed.

(** C6, as the code has it. The id and the owner of every task are the
    same before and after [update_task] with a patch whose keys are all
    names, in any letter case, of columns other than [id] and
    [created_by], as are the patches [cli.update] builds; before and after
    [assign_task]; and, on a table that satisfies its schema, before and
    after a scan. *)
Theorem owner_and_id_preserved
    (fromisoformat : string -> option datetime) (isoformat : datetime -> string)
    (now : datetime) (db : database) (task_id : sqlval)
    (updates : gmap string sqlval) (assigned assigner assignee : string) :
  well_formed db ->
  names_only other_columns updates = true ->
  identities (update_task db task_id updates).1 = identities db
  /\ identities (assign_task db assigned assigner assignee).1 = identities db
  /\ identities (check_and_update_recurring_tasks fromisoformat isoformat now db).1
     = identities db.
Proof.
  intros Hwf Hkeys. split; [|split].
  - by apply update_task_identities.
  - apply assign_task_identities.
  - by apply scan_identities.
Qed.

Lemma owner_and_id_preserved_witness :
  let db := Sample.daily_store in
  let updates : gmap string sqlval :=
    {["Status" := Some "completed"; "due_date" := Some "2024-03-01"]} in
  let now := Sample.midnight 2024 1 10 in
  well_formed db
  /\ names_only other_columns updates = true
  /\ update_task db (Some "t-daily") updates
     = (mkdb Sample.people
          [Task.mk (Some "t-daily") (Some "task") (Some "") (Some "2024-03-01")
             (Some "medium") (Some "completed") (Some "work") (Some "daily")
             (Some "2024-01-01 09:00:00") (Some "alice") None],
        true)
  /\ identities (update_task db (Some "t-daily") updates).1 = identities db
  /\ identities (assign_task db "t-daily" "alice" "bob").1 = identities db
  /\ identities (Sample.scan now db).1 = identities db.
Proof.
  intros db updates now.
  assert (Hwf : well_formed db) by (apply well_formed_dec; reflexivity).
  assert (Hkeys : names_only other_columns updates = true) by reflexivity.
  split; [exact Hwf|]. split; [exact Hkeys|].
  split; [reflexivity|].
  exact (owner_and_id_preserved Iso.fromisoformat Iso.isoformat now db
           (Some "t-daily") updates "t-daily" "alice" "bob" Hwf Hkeys).
Defined.

(** C6, counterexample. [update_task] applies a patch that names
    [created_by] or [id], in whatever letter case: the owner of task
    "t-daily" becomes "mallory", its id becomes "t-other". *)
Lemma update_task_overwrites_owner_and_id :
  identities Sample.daily_store = [(Some "t-daily", Some "alice")]
  /\ update_task Sample.daily_store (Some "t-daily") {["created_by" := Some "mallory"]}
     = (mkdb Sample.people
          [Sample.task "t-daily" (Some "2024-01-01") (Some "daily") "work" "mallory"],
        true)
  /\ identities
       (update_task Sample.daily_store (Some "t-daily") {["id" := Some "t-other"]}).1
     = [(Some "t-other", Some "alice")]
  /\ identities
       (update_task Sample.daily_store (Some "t-daily")
          {["ID" := Some "t-other"; "CREATED_BY" := Some "mallory"]}).1
     = [(Some "t-other", Some "mallory")].
Proof. repeat split; vm_compute; reflexivity. Qed.

(** ** ISO texts *)

Lemma digit_value_char (n : Z) :
  Iso.digit_value (Iso.digit_char n) = Some (n mod 10).
Proof.
  unfold Iso.digit_value, Iso.digit_char.
  assert (H : 0 <= n mod 10 < 10) by (apply Z.mod_pos_bound; lia).
  rewrite N_ascii_embedding by lia.
  destruct ((48 <=? 48 + Z.to_N (n mod 10))%N && (48 + Z.to_N (n mod 10) <=? 57)%N) eqn:E.
  - f_equal. lia.
  - apply andb_false_iff in E as [E|E]; [apply N.leb_gt in E | apply N.leb_gt in E]; lia.
Qed.

Lemma pad_2 (n : Z) :
  Iso.pad 2 n = String (Iso.digit_char (n / 10)) (String (Iso.digit_char n) "").
Proof. reflexivity. Qed.

Lemma pad_4 (n : Z) :
  Iso.pad 4 n
  = String (Iso.digit_char (n / 10 / 10 / 10))
      (String (Iso.digit_char (n / 10 / 10)) (Iso.pad 2 n)).
Proof. reflexivity. Qed.

Lemma pad_6 (n : Z) :
  Iso.pad 6 n
  = String (Iso.digit_char (n / 10 / 10 / 10 / 10 / 10))
      (String (Iso.digit_char (n / 10 / 10 / 10 / 10)) (Iso.pad 4 n)).
Proof. reflexivity. Qed.


Lemma digits_2 (n : Z) : 0 <= n < 100 ->
  10 * (10 * 0 + (n / 10) mod 10) + n mod 10 = n.
Proof. intros H. Z.div_mod_to_equations. lia. Qed.

Lemma digits_4 (n : Z) : 0 <= n < 10000 ->
  10 * (10 * (10 * (10 * 0 + (n / 10 / 10 / 10) mod 10) + (n / 10 / 10) mod 10)
        + (n / 10) mod 10) + n mod 10 = n.
Proof. intros H. Z.div_mod_to_equations. lia. Qed.

Lemma digits_6 (n : Z) : 0 <= n < 1000000 ->
  10 * (10 * (10 * (10 * (10 * (10 * 0 + (n / 10 / 10 / 10 / 10 / 10) mod 10)
        + (n / 10 / 10 / 10 / 10) mod 10) + (n / 10 / 10 / 10) mod 10)
        + (n / 10 / 10) mod 10) + (n / 10) mod 10) + n mod 10 = n.
Proof. intros H. Z.div_mod_to_equations. lia. Qed.

Lemma check_date_fields_bounds y m d :
  check_date_fields y m d = true -> 0 <= y < 10000 /\ 0 <= m < 100 /\ 0 <= d < 100.
Proof.
  unfold check_date_fields, MAXYEAR. intros H.
  repeat (apply andb_prop in H as [H ?]).
  assert (1 <= m <= 12) by lia.
  pose proof (days_in_month_bounds y m H5). lia.
Qed.

Lemma check_time_fields_bounds h mi s us :
  check_time_fields h mi s us = true ->
  0 <= h < 100 /\ 0 <= mi < 100 /\ 0 <= s < 100 /\ 0 <= us < 1000000.
Proof.
  unfold check_time_fields. intros H.
  repeat (apply andb_prop in H as [H ?]). lia.
Qed.

Lemma check_time_fields_seconds h mi s us :
  check_time_fields h mi s us = true -> check_time_fields h mi s 0 = true.
Proof.
  unfold check_time_fields. intros H.
  repeat (apply andb_prop in H as [H ?]).
  repeat (apply andb_true_intro; split); auto.
Qed.

(** What [isoformat] prints of a valid datetime, [fromisoformat] reads
    back. *)
Lemma iso_roundtrip (t : datetime) :
  valid t = true -> Iso.fromisoformat (Iso.isoformat t) = Some t.
Proof.
  intros Hv. destruct t as [y m d h mi s us].
  unfold valid in Hv. cbn [year month day hour minute second microsecond] in Hv.
  apply andb_prop in Hv as [Hd Ht].
  destruct (check_date_fields_bounds _ _ _ Hd) as (Hy & Hm & Hdd).
  destruct (check_time_fields_bounds _ _ _ _ Ht) as (Hh & Hmi & Hs & Hu).
  pose proof (check_time_fields_seconds _ _ _ _ Ht) as Ht0.
  unfold Iso.isoformat. cbn [year month day hour minute second microsecond].
  rewrite pad_4, !pad_2.
  destruct (us =? 0) eqn:Hus.
  - apply Z.eqb_eq in Hus as ->.
    cbv [String.append]. unfold Iso.fromisoformat, Iso.parse_date, Iso.parse_time.
    cbn [String.length].
    cbv [Iso.char_is String.get Iso.number_at String.substring Iso.number_from].
    rewrite !bool_decide_eq_true_2 by reflexivity.
    rewrite !digit_value_char. cbn [andb].
    rewrite digits_4, !digits_2 by assumption.
    rewrite Hd, Ht0. reflexivity.
  - rewrite pad_6, pad_4, pad_2.
    cbv [String.append]. unfold Iso.fromisoformat, Iso.parse_date, Iso.parse_time.
    cbn [String.length].
    cbv [Iso.char_is String.get Iso.number_at String.substring Iso.number_from].
    rewrite !bool_decide_eq_true_2 by reflexivity.
    rewrite !digit_value_char. cbn [andb].
    rewrite digits_4, digits_6, !digits_2 by assumption.
    rewrite Hd, Ht0. reflexivity.
Qed.

Lemma digit_value_bound (c : ascii) (d : Z) :
  Iso.digit_value c = Some d -> 0 <= d <= 9.
Proof.
  unfold Iso.digit_value.
  destruct ((48 <=? N_of_ascii c)%N && (N_of_ascii c <=? 57)%N) eqn:E; [|discriminate].
  intros [= <-]. apply andb_prop in E as [E1 E2].
  apply N.leb_le in E1, E2. lia.
Qed.

Lemma number_from_bound (s : string) (acc n : Z) :
  Iso.number_from acc s = Some n ->
  acc * 10 ^ Z.of_nat (String.length s) <= n
  < (acc + 1) * 10 ^ Z.of_nat (String.length s).
Proof.
  revert acc. induction s as [|c s IH]; intros acc H.
  - simpl in *. injection H as <-. lia.
  - cbn [Iso.number_from] in H.
    destruct (Iso.digit_value c) as [d|] eqn:Hd; [|discriminate].
    apply digit_value_bound in Hd. apply IH in H.
    cbn [String.length]. rewrite Nat2Z.inj_succ, Z.pow_succ_r by lia.
    nia.
Qed.

Lemma substring_length (pos len : nat) (s : string) :
  (String.length (String.substring pos len s) <= len)%nat.
Proof.
  revert pos len. induction s as [|c s IH]; intros pos len.
  - destruct pos, len; simpl; lia.
  - destruct pos as [|pos].
    + destruct len as [|len]; simpl; [lia|]. specialize (IH 0%nat len). lia.
    + simpl. apply IH.
Qed.

(** [fromisoformat] returns valid datetimes only. *)
Lemma fromisoformat_valid (s : string) (t : datetime) :
  Iso.fromisoformat s = Some t -> valid t = true.
Proof.
  unfold Iso.fromisoformat, Iso.parse_date, Iso.parse_time.
  destruct (Iso.char_is 4 "-" s && Iso.char_is 7 "-" s); [|discriminate].
  destruct (Iso.number_at 0 4 s) as [y|]; [|discriminate].
  destruct (Iso.number_at 5 2 s) as [m|]; [|discriminate].
  destruct (Iso.number_at 8 2 s) as [d|]; [|discriminate].
  destruct (check_date_fields y m d) eqn:Hd; [|discriminate].
  destruct (String.length s) as [|[|[|[|[|[|[|[|[|[|n]]]]]]]]]]; try discriminate.
  destruct n as [|[|[|[|[|[|[|[|[|n]]]]]]]]].
  - intros [= <-]. unfold valid. simpl. by rewrite Hd.
  - discriminate. 
  - discriminate. 
  - discriminate. 
  - discriminate. 
  - discriminate. 
  - discriminate. 
  - discriminate. 
  - discriminate. 
  - destruct (Iso.char_is 13 ":" s && Iso.char_is 16 ":" s).
    2:{ destruct n as [|[|[|[|[|[|[|[|n]]]]]]]]; discriminate. }
    destruct (Iso.number_at 11 2 s) as [h|].
    2:{ destruct n as [|[|[|[|[|[|[|[|n]]]]]]]]; discriminate. }
    destruct (Iso.number_at 14 2 s) as [mi|].
    2:{ destruct n as [|[|[|[|[|[|[|[|n]]]]]]]]; discriminate. }
    destruct (Iso.number_at 17 2 s) as [sec|].
    2:{ destruct n as [|[|[|[|[|[|[|[|n]]]]]]]]; discriminate. }
    destruct (check_time_fields h mi sec 0) eqn:Ht.
    2:{ destruct n as [|[|[|[|[|[|[|[|n]]]]]]]]; discriminate. }
    destruct n as [|[|[|[|[|[|[|[|n]]]]]]]]; try discriminate.
    + intros [= <-]. unfold valid. simpl. by rewrite Hd, Ht.
    + destruct (Iso.char_is 19 "." s); [|discriminate].
      destruct (Iso.number_at 20 6 s) as [us|] eqn:Hus; [|discriminate].
      intros [= <-]. unfold valid. simpl. rewrite Hd. simpl.
      unfold Iso.number_at in Hus. apply number_from_bound in Hus.
      pose proof (substring_length 20 6 s) as Hlen.
      assert (10 ^ Z.of_nat (String.length (String.substring 20 6 s)) <= 10 ^ 6)
        by (apply Z.pow_le_mono_r; lia).
      unfold check_time_fields in *.
      repeat (apply andb_prop in Ht as [Ht ?]).
      repeat (apply andb_true_intro; split); auto; lia.
Qed.

(** ** Tasks without recurrence *)

Lemma calculate_next_occurrence_other (due : datetime) (recurrence : option string) :
  recurs recurrence = false -> calculate_next_occurrence due recurrence = Ok due.
Proof.
  unfold recurs, calculate_next_occurrence.
  intros [[H1 H2]%orb_false_elim H3]%orb_false_elim.
  by rewrite H1, H2, H3.
Qed.

(** A task whose recurrence is none of the three is left as it is, or has
    its due date written back as the ISO text of the time it parsed to. *)
Lemma scan_without_recurrence
    (fromisoformat : string -> option datetime) (isoformat : datetime -> string)
    (now : datetime) (db : database) (i : nat) (r : Task.row) :
  well_formed db -> tasks db !! i = Some r -> recurs (Task.recurrence r) = false ->
  exists r',
    tasks (check_and_update_recurring_tasks fromisoformat isoformat now db).1 !! i
    = Some r'
    /\ (r' = r
        \/ exists text parsed,
             Task.due_date r = Some text /\ fromisoformat text = Some parsed
             /\ Calendar.leb parsed now = true
             /\ r' = Task.set_due_date (Some (isoformat parsed)) r).
Proof.
  intros Hwf Hi Hrec.
  destruct (scan_rows fromisoformat isoformat now db Hwf) as (_ & _ & Hrows).
  destruct (Forall2_lookup_l _ _ _ _ _ Hrows Hi) as (r' & Hr' & Hscanned).
  exists r'. split; [assumption|].
  destruct Hscanned
    as [->|[_ (text & parsed & next & Hdue & _ & Hparse & Hle & Hnext & ->)]];
    [by left|right].
  rewrite calculate_next_occurrence_other in Hnext by assumption.
  injection Hnext as <-. eauto 10.
Qed.

(** With a parser that reads the texts of the printer back, as
    [Iso.fromisoformat] does (see [iso_roundtrip]): the due date of such a
    task parses to the same time before and after the scan. *)
Lemma scan_keeps_due_time
    (fromisoformat : string -> option datetime) (isoformat : datetime -> string)
    (now : datetime) (db : database) (i : nat) (r : Task.row) :
  (forall text d, fromisoformat text = Some d -> fromisoformat (isoformat d) = Some d) ->
  well_formed db -> tasks db !! i = Some r -> recurs (Task.recurrence r) = false ->
  exists r',
    tasks (check_and_update_recurring_tasks fromisoformat isoformat now db).1 !! i = Some r'
    /\ Task.due_date r' ≫= fromisoformat = Task.due_date r ≫= fromisoformat.
Proof.
  intros Hround Hwf Hi Hrec.
  destruct (scan_without_recurrence fromisoformat isoformat now db i r Hwf Hi Hrec)
    as (r' & Hr' & Hcases).
  exists r'. split; [assumption|].
  destruct Hcases as [->|(text & parsed & Hdue & Hparse & _ & ->)]; [reflexivity|].
  rewrite Hdue. simpl. rewrite Hparse. by eapply Hround.
Qed.

Lemma iso_reads_back (text : string) (d : datetime) :
  Iso.fromisoformat text = Some d -> Iso.fromisoformat (Iso.isoformat d) = Some d.
Proof. intros H. apply iso_roundtrip. by eapply fromisoformat_valid. Qed.

(** C10, as the code has it. For a recurrence that is none of "daily",
    "weekly" and "monthly" (as [None]), [calculate_next_occurrence]
    returns the due date it was given. On a table that satisfies its
    schema the scan leaves a task of such a recurrence as it is, or, when
    the due date is set and not after [now], writes the due date back in
    ISO form: the text becomes [isoformat] of the time it parsed to. *)
Theorem unset_recurrence_keeps_due_time
    (fromisoformat : string -> option datetime) (isoformat : datetime -> string)
    (now : datetime) (db : database) (i : nat) (r : Task.row) (due : datetime) :
  well_formed db -> tasks db !! i = Some r -> recurs (Task.recurrence r) = false ->
  calculate_next_occurrence due (Task.recurrence r) = Ok due
  /\ exists r',
       tasks (check_and_update_recurring_tasks fromisoformat isoformat now db).1 !! i
       = Some r'
       /\ (r' = r
           \/ exists text parsed,
                Task.due_date r = Some text /\ fromisoformat text = Some parsed
                /\ Calendar.leb parsed now = true
                /\ r' = Task.set_due_date (Some (isoformat parsed)) r).
Proof.
  intros Hwf Hi Hrec. split; [by apply calculate_next_occurrence_other|].
  by apply scan_without_recurrence.
Qed.

Lemma unset_recurrence_keeps_due_time_witness :
  let now := Sample.midnight 2024 1 10 in
  let r := Sample.task "t-plain" (Some "2024-01-05") None "home" "alice" in
  well_formed Sample.plain_store
  /\ tasks Sample.plain_store !! 0%nat = Some r
  /\ recurs (Task.recurrence r) = false
  /\ calculate_next_occurrence now (Task.recurrence r) = Ok now
  /\ exists r',
       tasks (Sample.scan now Sample.plain_store).1 !! 0%nat = Some r'
       /\ (r' = r
           \/ exists text parsed,
                Task.due_date r = Some text /\ Iso.fromisoformat text = Some parsed
                /\ Calendar.leb parsed now = true
                /\ r' = Task.set_due_date (Some (Iso.isoformat parsed)) r).
Proof.
  intros now r.
  assert (Hwf : well_formed Sample.plain_store) by (apply well_formed_dec; reflexivity).
  assert (Hi : tasks Sample.plain_store !! 0%nat = Some r) by reflexivity.
  assert (Hrec : recurs (Task.recurrence r) = false) by reflexivity.
  split; [exact Hwf|]. split; [exact Hi|]. split; [exact Hrec|].
  exact (unset_recurrence_keeps_due_time Iso.fromisoformat Iso.isoformat now
           Sample.plain_store 0 r now Hwf Hi Hrec).
Defined.

(** C10, counterexample. A task without recurrence, due "2024-01-05",
    scanned on 2024-01-10: the scan stores "2024-01-05T00:00:00" as its
    due date. *)
Lemma scan_rewrites_due_date_without_recurrence :
  map Task.recurrence (tasks Sample.plain_store) = [None]
  /\ due_dates Sample.plain_store = [Some "2024-01-05"]
  /\ due_dates (Sample.scan (Sample.midnight 2024 1 10) Sample.plain_store).1
     = [Some "2024-01-05T00:00:00"]
  /\ due_dates (Sample.scan (Sample.midnight 2024 1 10) Sample.plain_store).1
     <> due_dates Sample.plain_store.
Proof.
  repeat split; try reflexivity.
  intros H. vm_compute in H. discriminate.
Qed.

(** ** [LIKE] and the tags filter *)

Lemma append_nil_l (s : string) : "" +:+ s = s.
Proof. reflexivity. Qed.

Lemma append_cons (c : ascii) (a b : string) :
  String c a +:+ b = String c (a +:+ b).
Proof. reflexivity. Qed.

Lemma append_nil_r (s : string) : s +:+ "" = s.
Proof.
  induction s as [|c s IH]; [reflexivity|]. by rewrite append_cons, IH.
Qed.

Lemma append_assoc (a b c : string) : (a +:+ b) +:+ c = a +:+ (b +:+ c).
Proof.
  induction a as [|x a IH]; [reflexivity|]. by rewrite !append_cons, IH.
Qed.

(** *** The search of [like] and the relation [matches] *)

Local Open Scope list_scope.












(** *** The characters of a text *)














(** * Further properties *)

(** ** Next occurrence: order and validity *)

Lemma valid_fields (t : datetime) :
  valid t = true ->
  1 <= year t <= MAXYEAR /\ 1 <= month t <= 12
  /\ 1 <= day t <= days_in_month (year t) (month t)
  /\ check_time_fields (hour t) (minute t) (second t) (microsecond t) = true.
Proof.
  unfold valid, check_date_fields. intros [Hd Ht]%andb_prop.
  repeat (apply andb_prop in Hd as [Hd ?]). repeat split; try assumption; lia.
Qed.

Lemma valid_intro (y m d : Z) (t : datetime) :
  1 <= y <= MAXYEAR -> 1 <= m <= 12 -> 1 <= d <= days_in_month y m ->
  check_time_fields (hour t) (minute t) (second t) (microsecond t) = true ->
  valid (with_date y m d t) = true.
Proof.
  intros Hy Hm Hd Ht. unfold valid, with_date, check_date_fields.
  cbn [year month day hour minute second microsecond]. rewrite Ht.
  repeat (apply andb_true_intro; split); try reflexivity; lia.
Qed.

Lemma later_date (y m d : Z) (t : datetime) :
  date_before t (with_date y m d t) -> Calendar.leb (with_date y m d t) t = false.
Proof.
  unfold date_before, with_date, Calendar.leb, key.
  cbn [year month day hour minute second microsecond lex_leb].
  intros H.
  destruct (Z.ltb_spec y (year t)); [lia|]. destruct (Z.eqb_spec y (year t)); [|reflexivity].
  destruct (Z.ltb_spec m (month t)); [lia|]. destruct (Z.eqb_spec m (month t)); [|reflexivity].
  destruct (Z.ltb_spec d (day t)); [lia|]. destruct (Z.eqb_spec d (day t)); [lia|reflexivity].
Qed.

(** What a day later is: a valid datetime of a later date at the same
    time of day. *)
Lemma tomorrow_later (t t' : datetime) :
  valid t = true -> tomorrow t = Ok t' ->
  valid t' = true /\ date_before t t' /\ exists y m d, t' = with_date y m d t.
Proof.
  intros (Hy & Hm & Hd & Ht)%valid_fields. unfold tomorrow, MAXYEAR in *.
  destruct (Z.ltb_spec (day t) (days_in_month (year t) (month t))).
  { intros [= <-]. split; [apply valid_intro; unfold MAXYEAR; try assumption; lia|].
    split; [unfold date_before, with_date; simpl; lia | eauto]. }
  destruct (Z.ltb_spec (month t) 12).
  { intros [= <-].
    pose proof (days_in_month_bounds (year t) (month t + 1) ltac:(lia)).
    split; [apply valid_intro; unfold MAXYEAR; try assumption; lia|].
    split; [unfold date_before, with_date; simpl; lia | eauto]. }
  destruct (Z.ltb_spec (year t) 9999); [|discriminate].
  intros [= <-].
  pose proof (days_in_month_bounds (year t + 1) 1 ltac:(lia)).
  split; [apply valid_intro; unfold MAXYEAR; try assumption; lia|].
  split; [unfold date_before, with_date; simpl; lia | eauto].
Qed.

Lemma with_date_twice (y m d y' m' d' : Z) (t : datetime) :
  with_date y' m' d' (with_date y m d t) = with_date y' m' d' t.
Proof. reflexivity. Qed.

Lemma add_days_later (n : nat) (t t' : datetime) :
  valid t = true -> add_days (S n) t = Ok t' ->
  valid t' = true /\ date_before t t' /\ exists y m d, t' = with_date y m d t.
Proof.
  revert t. induction n as [|n IH]; intros t Hv Hadd.
  - cbn [add_days] in Hadd. destruct (tomorrow t) as [t1|] eqn:H1; [|discriminate].
    cbn [bind] in Hadd. injection Hadd as <-. by apply tomorrow_later.
  - change (add_days (S (S n)) t) with (bind (tomorrow t) (add_days (S n))) in Hadd.
    destruct (tomorrow t) as [t1|] eqn:H1; [|discriminate]. cbn [bind] in Hadd.
    destruct (tomorrow_later t t1 Hv H1) as (Hv1 & Hlt1 & y1 & m1 & d1 & ->).
    destruct (IH _ Hv1 Hadd) as (Hv' & Hlt & y & m & d & ->).
    split; [assumption|]. rewrite with_date_twice in *.
    split; [|eauto]. unfold date_before, with_date in *. simpl in *. lia.
Qed.

Lemma calculate_next_occurrence_daily (t : datetime) :
  calculate_next_occurrence t (Some "daily") = add_days 1 t.
Proof. reflexivity. Qed.

Lemma calculate_next_occurrence_weekly (t : datetime) :
  calculate_next_occurrence t (Some "weekly") = add_days 7 t.
Proof. reflexivity. Qed.

Lemma recurs_cases (recurrence : option string) :
  recurs recurrence = true ->
  recurrence = Some "daily" \/ recurrence = Some "weekly" \/ recurrence = Some "monthly".
Proof.
  unfold recurs. rewrite !orb_true_iff, !bool_decide_eq_true. tauto.
Qed.

Lemma monthly_overflow (t : datetime) :
  valid t = true -> year t = MAXYEAR -> month t = 12 ->
  calculate_next_occurrence t (Some "monthly") = Raise OverflowError.
Proof.
  intros (Hy & Hm & Hd & Ht)%valid_fields Hyear Hmonth.
  destruct t as [y m d h mi s us]. simpl in *. subst y m.
  rewrite calculate_next_occurrence_monthly. reflexivity.
Qed.

(** X1. With "monthly", and a valid due date before December 9999,
    [calculate_next_occurrence] returns the same day of the next month at
    the same time of day when the next month has that day, and raises
    [ValueError] when it has not. *)
Theorem monthly_same_day_or_error (t : datetime) :
  valid t = true -> month t < 12 \/ year t < MAXYEAR ->
  (day t <= days_in_month (next_month (year t) (month t)).1
                          (next_month (year t) (month t)).2 ->
   calculate_next_occurrence t (Some "monthly")
   = Ok (with_date (next_month (year t) (month t)).1
                   (next_month (year t) (month t)).2 (day t) t))
  /\ (days_in_month (next_month (year t) (month t)).1
                    (next_month (year t) (month t)).2 < day t ->
      calculate_next_occurrence t (Some "monthly") = Raise ValueError).
Proof.
  intros Hv Hy. rewrite monthly_next_occurrence by assumption.
  split; intros H.
  - destruct (Z.leb_spec (day t)
      (days_in_month (next_month (year t) (month t)).1 (next_month (year t) (month t)).2));
      [reflexivity | lia].
  - destruct (Z.leb_spec (day t)
      (days_in_month (next_month (year t) (month t)).1 (next_month (year t) (month t)).2));
      [lia | reflexivity].
Qed.

Lemma monthly_same_day_or_error_witness :
  let t := mkdatetime 2024 3 31 18 30 0 0 in
  valid t = true /\ (month t < 12 \/ year t < MAXYEAR)
  /\ (day t <= days_in_month (next_month (year t) (month t)).1
                             (next_month (year t) (month t)).2 ->
      calculate_next_occurrence t (Some "monthly")
      = Ok (with_date (next_month (year t) (month t)).1
                      (next_month (year t) (month t)).2 (day t) t))
  /\ (days_in_month (next_month (year t) (month t)).1
                    (next_month (year t) (month t)).2 < day t ->
      calculate_next_occurrence t (Some "monthly") = Raise ValueError).
Proof.
  intros t.
  assert (Hv : valid t = true) by reflexivity.
  assert (Hy : month t < 12 \/ year t < MAXYEAR) by (left; reflexivity).
  split; [exact Hv|]. split; [exact Hy|].
  exact (monthly_same_day_or_error t Hv Hy).
Defined.

(** X2. Whenever [calculate_next_occurrence] returns for a valid due date
    and one of the recurrences "daily", "weekly", "monthly", what it
    returns is a valid datetime strictly after the due date. *)
Theorem next_occurrence_is_later (t t' : datetime) (recurrence : option string) :
  valid t = true -> recurs recurrence = true ->
  calculate_next_occurrence t recurrence = Ok t' ->
  valid t' = true /\ Calendar.leb t' t = false.
Proof.
  intros Hv Hrec Hnext.
  assert (Hgoal : valid t' = true /\ date_before t t' /\ exists y m d, t' = with_date y m d t).
  { destruct (recurs_cases _ Hrec) as [-> | [-> | ->]].
    - rewrite calculate_next_occurrence_daily in Hnext. by apply add_days_later in Hnext.
    - rewrite calculate_next_occurrence_weekly in Hnext. by apply add_days_later in Hnext.
    - destruct (valid_fields t Hv) as (Hy & Hm & Hd & Ht).
      assert (Hcase : month t < 12 \/ year t < MAXYEAR \/ (year t = MAXYEAR /\ month t = 12))
        by lia.
      destruct Hcase as [Hc|[Hc|[Hc1 Hc2]]];
        [| |rewrite monthly_overflow in Hnext by assumption; discriminate].
      all: rewrite monthly_next_occurrence in Hnext by tauto.
      all: destruct (Z.leb_spec (day t)
             (days_in_month (next_month (year t) (month t)).1
                            (next_month (year t) (month t)).2)) as [Hle|]; [|discriminate].
      all: injection Hnext as <-.
      all: unfold next_month, MAXYEAR in *; destruct (Z.ltb_spec (month t) 12); simpl in *.
      all: (split; [apply valid_intro; unfold MAXYEAR; try assumption; lia|]).
      all: (split; [unfold date_before, with_date; simpl; lia | eauto]). }
  destruct Hgoal as (Hv' & Hlt & y & m & d & ->).
  split; [assumption | by apply later_date].
Qed.

Lemma next_occurrence_is_later_witness :
  let t := mkdatetime 2024 12 29 8 0 0 0 in
  let t' := mkdatetime 2025 1 5 8 0 0 0 in
  valid t = true /\ recurs (Some "weekly") = true
  /\ calculate_next_occurrence t (Some "weekly") = Ok t'
  /\ valid t' = true /\ Calendar.leb t' t = false.
Proof.
  intros t t'.
  assert (Hv : valid t = true) by reflexivity.
  assert (Hrec : recurs (Some "weekly") = true) by reflexivity.
  assert (Hnext : calculate_next_occurrence t (Some "weekly") = Ok t') by reflexivity.
  split; [exact Hv|]. split; [exact Hrec|]. split; [exact Hnext|].
  exact (next_occurrence_is_later t t' (Some "weekly") Hv Hrec Hnext).
Defined.


Lemma add_days_returns (n : nat) (t : datetime) :
  valid t = true ->
  year t < MAXYEAR \/ (year t = MAXYEAR /\ month t = 1 /\ day t + Z.of_nat n <= 28) ->
  (n <= 27)%nat ->
  exists t', add_days n t = Ok t'.
Proof.
  revert t. induction n as [|n IH]; intros t Hv Hroom Hn; [by exists t|].
  destruct (valid_fields t Hv) as (Hy & Hm & Hd & Ht).
  assert (Hstep : exists t1, tomorrow t = Ok t1
    /\ (year t1 < MAXYEAR
        \/ (year t1 = MAXYEAR /\ month t1 = 1 /\ day t1 + Z.of_nat n <= 28))).
  { unfold tomorrow, MAXYEAR in *.
    pose proof (days_in_month_bounds (year t) (month t) Hm).
    destruct (Z.ltb_spec (day t) (days_in_month (year t) (month t))).
    { eexists. split; [reflexivity|]. simpl. lia. }
    destruct (Z.ltb_spec (month t) 12).
    { eexists. split; [reflexivity|]. simpl. lia. }
    destruct (Z.ltb_spec (year t) 9999); [|lia].
    eexists. split; [reflexivity|]. simpl. lia. }
  destruct Hstep as (t1 & H1 & Hroom1).
  destruct (tomorrow_later t t1 Hv H1) as (Hv1 & _ & _).
  destruct (IH t1 Hv1 Hroom1 ltac:(lia)) as (t' & Ht').
  exists t'. cbn [add_days]. rewrite H1. exact Ht'.
Qed.

(** X3. With "daily" and with "weekly", [calculate_next_occurrence] returns
    for every valid due date before the year 9999: unlike "monthly", these
    two recurrences raise nothing. *)
Theorem daily_and_weekly_return (t : datetime) (recurrence : option string) :
  valid t = true -> year t < MAXYEAR ->
  recurrence = Some "daily" \/ recurrence = Some "weekly" ->
  exists t', calculate_next_occurrence t recurrence = Ok t'.
Proof.
  intros Hv Hy [->| ->].
  - rewrite calculate_next_occurrence_daily. apply add_days_returns; [assumption|tauto|lia].
  - rewrite calculate_next_occurrence_weekly. apply add_days_returns; [assumption|tauto|lia].
Qed.

Lemma daily_and_weekly_return_witness :
  let t := mkdatetime 2023 12 31 23 59 59 999999 in
  valid t = true /\ year t < MAXYEAR
  /\ (Some "daily" = Some "daily" \/ Some "daily" = Some "weekly")
  /\ exists t', calculate_next_occurrence t (Some "daily") = Ok t'.
Proof.
  intros t.
  assert (Hv : valid t = true) by reflexivity.
  assert (Hy : year t < MAXYEAR) by reflexivity.
  assert (Hr : Some "daily" = Some "daily" \/ Some "daily" = Some "weekly")
    by (left; reflexivity).
  split; [exact Hv|]. split; [exact Hy|]. split; [exact Hr|].
  exact (daily_and_weekly_return t (Some "daily") Hv Hy Hr).
Defined.


(** ** The scan, when nothing raises *)

(** X4. On a table that satisfies its schema, when every due date that is
    set parses and the next occurrence of every elapsed one is computed
    without exception, the scan returns, it rolls over once every task
    whose due date is not after [now] (a row without id apart), and it
    leaves every other task as it was. *)
Theorem scan_rolls_every_elapsed_task
    (fromisoformat : string -> option datetime) (isoformat : datetime -> string)
    (now : datetime) (db : database) :
  well_formed db ->
  (forall t, t ∈ tasks db -> can_roll fromisoformat now t) ->
  (check_and_update_recurring_tasks fromisoformat isoformat now db).2 = Returned
  /\ Forall2
       (fun r r' =>
          if elapsed fromisoformat now r && bool_decide (is_Some (Task.id r))
          then rolled fromisoformat isoformat now r r'
          else r' = r)
       (tasks db)
       (tasks (check_and_update_recurring_tasks fromisoformat isoformat now db).1).
Proof. apply scan_returns. Qed.

Lemma mixed_store_can_roll (now : datetime) (t : Task.row) :
  t ∈ tasks More.mixed_store -> can_roll Iso.fromisoformat now t.
Proof.
  intros Ht. unfold More.mixed_store in Ht. cbn [tasks] in Ht.
  repeat (apply elem_of_cons in Ht as [->|Ht]);
    [..|by apply elem_of_nil in Ht]; cbn.
  - eexists. split; [reflexivity|]. intros _. eexists. reflexivity.
  - eexists. split; [reflexivity|]. intros _. eexists. reflexivity.
  - exact I.
  - eexists. split; [reflexivity|]. intros _. eexists. reflexivity.
Defined.

Lemma scan_rolls_every_elapsed_task_witness :
  let now := More.noon 2024 1 10 in
  well_formed More.mixed_store
  /\ (Sample.scan now More.mixed_store).2 = Returned
  /\ due_dates (Sample.scan now More.mixed_store).1
     = [Some "2024-01-02T00:00:00"; Some "2024-06-01T09:00:00"; None;
        Some "2024-01-03T00:00:00"]
  /\ Forall2
       (fun r r' =>
          if elapsed Iso.fromisoformat now r && bool_decide (is_Some (Task.id r))
          then rolled Iso.fromisoformat Iso.isoformat now r r'
          else r' = r)
       (tasks More.mixed_store) (tasks (Sample.scan now More.mixed_store).1).
Proof.
  intros now.
  assert (Hwf : well_formed More.mixed_store) by (apply well_formed_dec; reflexivity).
  split; [exact Hwf|].
  pose proof (scan_rolls_every_elapsed_task Iso.fromisoformat Iso.isoformat now
                More.mixed_store Hwf (mixed_store_can_roll now)) as [Hret Hrows].
  split; [exact Hret|]. split; [reflexivity | exact Hrows].
Defined.

(** X5. On a table that satisfies its schema, a task whose due date is
    NULL, empty, unreadable or after [now] comes out of a scan as it went
    in, whatever the scan does with the other tasks and whether it
    returns or raises. *)
Theorem scan_leaves_unelapsed_task
    (fromisoformat : string -> option datetime) (isoformat : datetime -> string)
    (now : datetime) (db : database) (i : nat) (r : Task.row) :
  well_formed db -> tasks db !! i = Some r -> elapsed fromisoformat now r = false ->
  tasks (check_and_update_recurring_tasks fromisoformat isoformat now db).1 !! i = Some r.
Proof.
  intros Hwf Hi Hnot.
  destruct (scan_rows fromisoformat isoformat now db Hwf) as (_ & _ & Hrows).
  destruct (Forall2_lookup_l _ _ _ _ _ Hrows Hi) as (r' & Hr' & [->|[_ Hroll]]);
    [assumption|].
  apply rolled_elapsed in Hroll. congruence.
Qed.

Lemma scan_leaves_unelapsed_task_witness :
  let now := More.noon 2024 1 10 in
  let r := Sample.task "m-later" (Some "2024-06-01T09:00:00") (Some "weekly") "home" "bob" in
  well_formed More.mixed_store
  /\ tasks More.mixed_store !! 1%nat = Some r
  /\ elapsed Iso.fromisoformat now r = false
  /\ tasks (Sample.scan now More.mixed_store).1 !! 1%nat = Some r.
Proof.
  intros now r.
  assert (Hwf : well_formed More.mixed_store) by (apply well_formed_dec; reflexivity).
  assert (Hi : tasks More.mixed_store !! 1%nat = Some r) by reflexivity.
  assert (Hnot : elapsed Iso.fromisoformat now r = false) by reflexivity.
  split; [exact Hwf|]. split; [exact Hi|]. split; [exact Hnot|].
  exact (scan_leaves_unelapsed_task Iso.fromisoformat Iso.isoformat now
           More.mixed_store 1 r Hwf Hi Hnot).
Defined.

(** X6. A scan keeps the schema: after it, returned or raised, no two
    tasks share an id and every task satisfies the NOT NULL and CHECK
    constraints, and the table has as many tasks as before. *)
Theorem scan_keeps_schema
    (fromisoformat : string -> option datetime) (isoformat : datetime -> string)
    (now : datetime) (db : database) :
  well_formed db ->
  well_formed (check_and_update_recurring_tasks fromisoformat isoformat now db).1
  /\ length (tasks (check_and_update_recurring_tasks fromisoformat isoformat now db).1)
     = length (tasks db).
Proof.
  intros Hwf.
  destruct (scan_rows fromisoformat isoformat now db Hwf) as (Hwf' & _ & Hrows).
  split; [assumption|]. symmetry. by eapply Forall2_length.
Qed.

Lemma scan_keeps_schema_witness :
  let now := More.noon 2024 1 10 in
  well_formed More.mixed_store
  /\ well_formed (Sample.scan now More.mixed_store).1
  /\ length (tasks (Sample.scan now More.mixed_store).1)
     = length (tasks More.mixed_store).
Proof.
  intros now.
  assert (Hwf : well_formed More.mixed_store) by (apply well_formed_dec; reflexivity).
  split; [exact Hwf|].
  exact (scan_keeps_schema Iso.fromisoformat Iso.isoformat now More.mixed_store Hwf).
Defined.

(** ** [delete_task], [create_task], [get_user_tasks] *)

(** X7. [delete_task] returns [True] whether or not a task has the id. It
    leaves the users alone, removes every task of that id and keeps the
    others, in their order; when no task has the id the database is the
    one it was given. *)
Theorem delete_task_removes_the_id (db : database) (task_id : string) :
  (delete_task db (Some task_id)).2 = true
  /\ users (delete_task db (Some task_id)).1 = users db
  /\ tasks (delete_task db (Some task_id)).1 `sublist_of` tasks db
  /\ (forall r, r ∈ tasks (delete_task db (Some task_id)).1
                <-> r ∈ tasks db /\ Task.id r <> Some task_id)
  /\ ((forall r, r ∈ tasks db -> Task.id r <> Some task_id)
      -> (delete_task db (Some task_id)).1 = db).
Proof.
  assert (Hno : forall r, sql_eq (Task.id r) (Some task_id) = false
                          <-> Task.id r <> Some task_id).
  { intros r. rewrite <- sql_eq_Some. by destruct (sql_eq _ _). }
  split; [reflexivity|]. split; [reflexivity|]. split; [apply sublist_filter|].
  split.
  - intros r. by rewrite delete_task_elem_of, Hno.
  - intros Hnone. unfold delete_task. cbn [fst].
    assert (Hsame : filter (fun r => sql_eq (Task.id r) (Some task_id) = false) (tasks db)
                    = tasks db).
    { induction (tasks db) as [|r l IH]; [reflexivity|].
      rewrite filter_cons_True by (apply Hno, Hnone; left).
      f_equal. apply IH. intros r' Hr'. apply Hnone. by right. }
    rewrite Hsame. apply with_tasks_same.
Qed.

Lemma well_formed_snoc (db : database) (row : Task.row) :
  well_formed db -> Task.constraints row = true ->
  unique_idsb (tasks db ++ [row]) = true ->
  well_formed (with_tasks db (tasks db ++ [row])).
Proof.
  intros [_ Hc] Hrow Hu. split; simpl.
  - by apply bool_decide_eq_true in Hu.
  - rewrite forallb_app, Hc. simpl. by rewrite Hrow.
Qed.

Lemma inserted_row_fields (task_data : gmap string pyval) (task_id timestamp : string)
    (row : Task.row) :
  inserted_row task_data task_id timestamp = Some row ->
  Task.id row = Some task_id /\ Task.created_at row = Some timestamp
  /\ bind_param (get_or task_data "title" PyNone) = Some (Task.title row)
  /\ bind_param (get_or task_data "description" (PyStr "")) = Some (Task.description row)
  /\ bind_param (get_or task_data "priority" (PyStr "medium")) = Some (Task.priority row)
  /\ bind_param (get_or task_data "status" (PyStr "pending")) = Some (Task.status row)
  /\ bind_param (tags_param task_data) = Some (Task.tags row)
  /\ bind_param (get_or task_data "created_by" PyNone) = Some (Task.created_by row).
Proof.
  unfold inserted_row. intros H.
  apply bind_Some in H as (title & Htitle & H).
  apply bind_Some in H as (description & Hdescription & H).
  apply bind_Some in H as (due_date & Hdue_date & H).
  apply bind_Some in H as (priority & Hpriority & H).
  apply bind_Some in H as (status & Hstatus & H).
  apply bind_Some in H as (tags & Htags & H).
  apply bind_Some in H as (recurrence & Hrecurrence & H).
  apply bind_Some in H as (created_by & Hcreated_by & H).
  apply bind_Some in H as (assigned_to & Hassigned_to & H).
  injection H as <-. cbn [Task.id Task.created_at Task.title Task.description
    Task.priority Task.status Task.tags Task.created_by]. auto 10.
Qed.

Lemma truthy_text (task_data : gmap string pyval) (k : string) (v : sqlval) :
  py_truthy (task_data !! k) = true ->
  bind_param (get_or task_data k PyNone) = Some v ->
  exists text, task_data !! k = Some (PyStr text) /\ text <> "" /\ v = Some text.
Proof.
  unfold get_or. destruct (task_data !! k) as [[|[|c text]|[|t l]]|]; try discriminate.
  intros _ [= <-]. eexists. split; [reflexivity|]. split; [discriminate | reflexivity].
Qed.

(** X8. [create_task] returns [None] and leaves the database as it is, or
    returns the new id and appends one row to the tasks table. That row
    has the new id and the time of creation; its title and its owner are
    the non-empty texts of [task_data]; without the keys "priority",
    "status" and "description" it gets "medium", "pending" and the empty
    text; a list of tags is stored joined by commas; and the table
    satisfies the schema again. *)
Theorem create_task_appends_a_row (db : database) (task_data : gmap string pyval)
    (task_id timestamp : string) :
  ((create_task db task_data task_id timestamp).2 = None
   -> (create_task db task_data task_id timestamp).1 = db)
  /\ (forall i, (create_task db task_data task_id timestamp).2 = Some i ->
      i = task_id
      /\ users (create_task db task_data task_id timestamp).1 = users db
      /\ exists row,
           tasks (create_task db task_data task_id timestamp).1 = tasks db ++ [row]
           /\ Task.id row = Some task_id
           /\ Task.created_at row = Some timestamp
           /\ (exists title, task_data !! "title" = Some (PyStr title) /\ title <> ""
                             /\ Task.title row = Some title)
           /\ (exists owner, task_data !! "created_by" = Some (PyStr owner) /\ owner <> ""
                             /\ Task.created_by row = Some owner)
           /\ (task_data !! "priority" = None -> Task.priority row = Some "medium")
           /\ (task_data !! "status" = None -> Task.status row = Some "pending")
           /\ (task_data !! "description" = None -> Task.description row = Some "")
           /\ (forall l, task_data !! "tags" = Some (PyList l)
                         -> Task.tags row = Some (join_tags l))
           /\ (forall r, r ∈ tasks db -> Task.id r <> Some task_id)
           /\ (well_formed db
               -> well_formed (create_task db task_data task_id timestamp).1)).
Proof.
  unfold create_task.
  destruct (py_truthy (task_data !! "title")) eqn:Htitle; cbn [negb orb];
    [|split; [reflexivity | discriminate]].
  destruct (py_truthy (task_data !! "created_by")) eqn:Howner; cbn [negb];
    [|split; [reflexivity | discriminate]].
  destruct (inserted_row task_data task_id timestamp) as [row|] eqn:Hrow;
    [|split; [reflexivity | discriminate]].
  destruct (Task.constraints row) eqn:Hc; cbn [andb];
    [|split; [reflexivity | discriminate]].
  destruct (unique_idsb (tasks db ++ [row])) eqn:Hu;
    [|split; [reflexivity | discriminate]].
  split; [discriminate|]. intros i [= <-]. split; [reflexivity|].
  split; [reflexivity|]. exists row. split; [reflexivity|].
  destruct (inserted_row_fields _ _ _ _ Hrow)
    as (Hid & Hat & Et & Ed & Ep & Es & Etags & Eo).
  split; [assumption|]. split; [assumption|].
  split.
  { destruct (truthy_text _ _ _ Htitle Et) as (text & ? & ? & ?). eauto. }
  split.
  { destruct (truthy_text _ _ _ Howner Eo) as (text & ? & ? & ?). eauto. }
  unfold get_or, tags_param in *.
  split; [intros E; rewrite E in Ep; by injection Ep|].
  split; [intros E; rewrite E in Es; by injection Es|].
  split; [intros E; rewrite E in Ed; by injection Ed|].
  split; [intros l E; rewrite E in Etags; by injection Etags|].
  split.
  - apply bool_decide_eq_true in Hu. rewrite omap_app in Hu.
    apply NoDup_app in Hu as (_ & Hu & _).
    intros r Hr Heq. apply (Hu task_id).
    + apply list_elem_of_omap. eauto.
    + cbn [omap list_omap]. rewrite Hid. left.
  - intros Hwf. by apply well_formed_snoc.
Qed.

(** X9. [get_user_tasks] returns the tasks the user created or is
    assigned; for the empty username the filter is skipped and it
    returns every task. *)
Theorem get_user_tasks_visible (db : database) (username : string) (r : Task.row) :
  (username <> "" ->
   (r ∈ get_user_tasks db username
    <-> r ∈ tasks db
        /\ (Task.created_by r = Some username \/ Task.assigned_to r = Some username)))
  /\ get_user_tasks db "" ≡ₚ tasks db.
Proof.
  unfold get_user_tasks. split.
  - intros Hne. rewrite get_tasks_elem_of. unfold where_clause, where_username.
    cbn [Filters.username]. destruct username as [|c u]; [done|]. cbn [truthy].
    unfold where_search, where_tags, where_priority, where_status. cbn.
    rewrite !andb_true_r, orb_true_iff, !sql_eq_Some. tauto.
  - unfold get_tasks. rewrite order_by_Permutation.
    induction (tasks db) as [|t l IH]; [reflexivity|].
    rewrite filter_cons_True by reflexivity. by rewrite IH.
Qed.

(** ** The order of [get_tasks] *)










(** ** Partial updates *)

Lemma get_patched (updates : gmap string sqlval) (r : Task.row) (c : column) :
  Task.get c (patched updates r) = patch_field updates r c.
Proof. by destruct c. Qed.

Lemma assignments_elem_of (updates : gmap string sqlval) (c : column)
    (k : string) (v : sqlval) :
  (k, v) ∈ assignments updates c <-> updates !! k = Some v /\ names k c = true.
Proof.
  unfold assignments. rewrite list_elem_of_filter, elem_of_map_to_list. simpl. tauto.
Qed.


Lemma patch_field_named (updates : gmap string sqlval) (r : Task.row) (c : column)
    (k : string) (v : sqlval) :
  updates !! k = Some v -> names k c = true ->
  (forall k', is_Some (updates !! k') -> names k' c = true -> k' = k) ->
  patch_field updates r c = v.
Proof.
  intros Hk Hn Hone. unfold patch_field.
  destruct (assignments updates c) as [|[k' v'] l] eqn:E.
  - assert (Hin : (k, v) ∈ assignments updates c) by by apply assignments_elem_of.
    rewrite E in Hin. by apply elem_of_nil in Hin.
  - assert (Hin : (k', v') ∈ assignments updates c) by (rewrite E; left).
    apply assignments_elem_of in Hin as [Hk' Hn'].
    assert (k' = k) as -> by (apply Hone; eauto). congruence.
Qed.



(** X12. With a patch whose keys are names of columns, an update of a
    stored task fails and changes nothing when the one key that names
    the column gives [priority] or [status] a value outside the labels of
    the schema, or gives NULL to [title] or [created_by]. *)
Theorem update_task_refuses_bad_values (db : database) (task_id : string)
    (updates : gmap string sqlval) (r : Task.row) (c : column) (k : string)
    (v : sqlval) :
  names_only all_columns updates = true ->
  r ∈ tasks db -> Task.id r = Some task_id ->
  updates !! k = Some v -> names k c = true ->
  (forall k', is_Some (updates !! k') -> names k' c = true -> k' = k) ->
  (c = Priority /\ v ∉ priorities) \/ (c = Status /\ v ∉ statuses)
  \/ ((c = Title \/ c = Created_by) /\ v = None) ->
  update_task db (Some task_id) updates = (db, false).
Proof.
  intros _ Hr Hid Hk Hn Hone Hbad. unfold update_task.
  assert (Hfield : Task.get c (patched updates r) = v)
    by (rewrite get_patched; by eapply patch_field_named).
  assert (Hc : Task.constraints (patched updates r) = false).
  { unfold Task.constraints.
    destruct Hbad as [[-> Hv]|[[-> Hv]|[[-> | ->] ->]]]; cbn [Task.get] in Hfield;
      rewrite ?Hfield.
    - destruct (Task.title (patched updates r)); [|reflexivity].
      destruct v as [label|]; [|reflexivity].
      destruct (Task.status (patched updates r)); [|reflexivity].
      destruct (Task.created_by (patched updates r)); [|reflexivity].
      apply andb_false_iff. left. apply not_true_is_false. intros Hin.
      apply existsb_exists in Hin as (p' & Hp' & ->%String.eqb_eq).
      apply Hv. simpl in Hp'. unfold priorities.
      destruct Hp' as [<-|[<-|[<-|[<-|[]]]]];
        repeat first [apply list_elem_of_here | apply list_elem_of_further].
    - destruct (Task.title (patched updates r)); [|reflexivity].
      destruct (Task.priority (patched updates r)); [|reflexivity].
      destruct v as [label|]; [|reflexivity].
      destruct (Task.created_by (patched updates r)); [|reflexivity].
      apply andb_false_iff. right. apply not_true_is_false. intros Hin.
      apply existsb_exists in Hin as (s' & Hs' & ->%String.eqb_eq).
      apply Hv. simpl in Hs'. unfold statuses.
      destruct Hs' as [<-|[<-|[]]];
        repeat first [apply list_elem_of_here | apply list_elem_of_further].
    - reflexivity.
    - destruct (Task.title (patched updates r)); [|reflexivity].
      destruct (Task.priority (patched updates r)); [|reflexivity].
      by destruct (Task.status (patched updates r)). }
  assert (Hno : update_allowed (Some task_id) updates (tasks db) = false).
  { unfold update_allowed. apply andb_false_iff. left.
    apply not_true_is_false. intros Hall. rewrite forallb_forall in Hall.
    specialize (Hall r ltac:(by apply list_elem_of_In)).
    assert (sql_eq (Task.id r) (Some task_id) = true) as He by by apply sql_eq_Some.
    rewrite He, Hc in Hall. discriminate. }
  by rewrite Hno, andb_false_r.
Qed.

Lemma update_task_refuses_bad_values_witness :
  let updates : gmap string sqlval := {["priority" := Some "urgent"]} in
  let r := Sample.task "t-daily" (Some "2024-01-01") (Some "daily") "work" "alice" in
  names_only all_columns updates = true
  /\ r ∈ tasks Sample.daily_store
  /\ update_task Sample.daily_store (Some "t-daily") updates = (Sample.daily_store, false).
Proof.
  intros updates r.
  assert (Hkeys : names_only all_columns updates = true) by reflexivity.
  assert (Hr : r ∈ tasks Sample.daily_store) by left.
  split; [exact Hkeys|]. split; [exact Hr|].
  apply (update_task_refuses_bad_values Sample.daily_store "t-daily" updates r
           Priority "priority" (Some "urgent") Hkeys Hr eq_refl eq_refl eq_refl).
  - intros k' [v' Hk'] _.
    destruct (decide (k' = "priority")) as [->|Hne]; [reflexivity|].
    unfold updates in Hk'. rewrite lookup_singleton_ne in Hk' by done. discriminate.
  - left. split; [reflexivity|]. unfold priorities.
    intros H. repeat (apply elem_of_cons in H as [H|H]; [discriminate H|]).
    by apply elem_of_nil in H.
Defined.

(** ** [cli.update] *)

Lemma names_only_Forall (cs : list column) (updates : gmap string sqlval) :
  names_only cs updates = true
  <-> map_Forall (fun k _ => existsb (names k) cs = true) updates.
Proof.
  unfold names_only. rewrite forallb_forall, map_Forall_to_list, Forall_forall.
  split.
  - intros H [k v] Hin. apply (H (k, v)). by apply list_elem_of_In.
  - intros H [k v] Hin. apply (H (k, v)). by apply list_elem_of_In.
Qed.

Lemma names_only_mono (cs cs' : list column) (updates : gmap string sqlval) :
  (forall c, c ∈ cs -> c ∈ cs') ->
  names_only cs updates = true -> names_only cs' updates = true.
Proof.
  intros Hsub. rewrite !names_only_Forall. intros H.
  eapply map_Forall_impl; [exact H|].
  intros k _ (c & Hc & Hn)%existsb_exists. apply existsb_exists. exists c.
  split; [|assumption]. apply list_elem_of_In, Hsub. by apply list_elem_of_In.
Qed.

Lemma update_patch_keys (strptime_ok : string -> bool)
    (status due_date priority : option string) (tag : list string)
    (description : option string) (updates : gmap string sqlval) :
  Cli.update_patch strptime_ok status due_date priority tag description = Some updates ->
  names_only [Status; Due_date; Priority; Tags; Description] updates = true.
Proof.
  unfold Cli.update_patch. intros H. apply names_only_Forall.
  set (P := fun (k : string) (_ : sqlval) =>
              existsb (names k) [Status; Due_date; Priority; Tags; Description] = true).
  assert (H0 : map_Forall P (∅ : gmap string sqlval)) by apply map_Forall_empty.
  set (u0 := (∅ : gmap string sqlval)) in *.
  set (u1 := if truthy status then <["status" := status]> u0 else u0) in *.
  assert (H1 : map_Forall P u1).
  { unfold u1. destruct (truthy status); [|assumption].
    by apply map_Forall_insert_2. }
  clearbody u1. clear H0 u0.
  assert (Hdated : exists u2, map_Forall P u2
    /\ Some (let updates :=
               if truthy priority then <["priority" := priority]> u2 else u2 in
             let updates :=
               match tag with
               | [] => updates
               | _ :: _ => <["tags" := Some (join_tags tag)]> updates
               end in
             if truthy description then <["description" := description]> updates
             else updates) = Some updates).
  { destruct due_date as [[|c text]|]; [eauto| |eauto].
    destruct (strptime_ok (String c text)); [|discriminate].
    eexists. split; [|exact H]. by apply map_Forall_insert_2. }
  destruct Hdated as (u2 & H2 & Heq). injection Heq as <-.
  assert (H3 : map_Forall P (if truthy priority then <["priority" := priority]> u2 else u2)).
  { destruct (truthy priority); [|assumption]. by apply map_Forall_insert_2. }
  set (u3 := if truthy priority then <["priority" := priority]> u2 else u2) in *.
  clearbody u3.
  assert (H4 : map_Forall P match tag with
                            | [] => u3
                            | _ :: _ => <["tags" := Some (join_tags tag)]> u3
                            end).
  { destruct tag; [assumption|]. by apply map_Forall_insert_2. }
  destruct (truthy description); [|assumption].
  by apply map_Forall_insert_2.
Qed.

(** X13. [cli.update] never changes the id or the owner of a task: the
    patch it builds has no other keys than status, due_date, priority,
    tags and description. It leaves the database as it is when it
    refuses the id or the date, when no option is given and when the
    update fails. *)
Theorem cli_update_keeps_owner_and_id (strptime_ok : string -> bool)
    (db : database) (task_id : string) (status due_date priority : option string)
    (tag : list string) (description : option string) :
  identities (Cli.update strptime_ok db task_id status due_date priority tag description).1
  = identities db
  /\ users (Cli.update strptime_ok db task_id status due_date priority tag description).1
     = users db
  /\ (forall updates,
        Cli.update_patch strptime_ok status due_date priority tag description
        = Some updates ->
        names_only [Status; Due_date; Priority; Tags; Description] updates = true)
  /\ ((Cli.update strptime_ok db task_id status due_date priority tag description).2
      <> Cli.Task_updated
      -> (Cli.update strptime_ok db task_id status due_date priority tag description).1
         = db).
Proof.
  split; [|split; [|split]].
  - unfold Cli.update.
    destruct (negb (truthy (Some task_id)) || negb (Cli.len task_id =? 36)%nat);
      [reflexivity|].
    destruct (Cli.update_patch _ _ _ _ _ _) as [updates|] eqn:Hp; [|reflexivity].
    case_bool_decide; [reflexivity|].
    destruct (update_task db (Some task_id) updates) as [db' ok] eqn:Hu.
    change db' with (db', ok).1. rewrite <- Hu. apply update_task_identities.
    eapply names_only_mono; [|by eapply update_patch_keys].
    intros c Hc%list_elem_of_In. apply list_elem_of_In. simpl in *. tauto.
  - unfold Cli.update.
    destruct (negb (truthy (Some task_id)) || negb (Cli.len task_id =? 36)%nat);
      [reflexivity|].
    destruct (Cli.update_patch _ _ _ _ _ _) as [updates|]; [|reflexivity].
    case_bool_decide; [reflexivity|].
    unfold update_task. by destruct (_ && _).
  - apply update_patch_keys.
  - unfold Cli.update.
    destruct (negb (truthy (Some task_id)) || negb (Cli.len task_id =? 36)%nat);
      [reflexivity|].
    destruct (Cli.update_patch _ _ _ _ _ _) as [updates|]; [|reflexivity].
    case_bool_decide; [reflexivity|].
    unfold update_task. by destruct (_ && _).
Qed.

(** ** Users and settings *)

Lemma has_username_true (name : string) (u : User.row) :
  has_username name u = true <-> User.username u = Some name.
Proof. apply sql_eq_Some. Qed.

Lemma has_email_true (address : string) (u : User.row) :
  has_email address u = true <-> User.email u = Some address.
Proof. apply sql_eq_Some. Qed.

Lemma filter_nobody (name : string) (us : list User.row) :
  (forall u, u ∈ us -> User.username u <> Some name) ->
  filter (fun u => has_username name u = true) us = [].
Proof.
  intros Hno. induction us as [|u us IH]; [reflexivity|].
  rewrite filter_cons_False.
  - apply IH. intros u' Hu'. apply Hno. by right.
  - rewrite has_username_true. apply Hno. left.
Qed.

Lemma create_user_cases
    (hashpw : string -> string -> option string) (db : database)
    (username email password salt timestamp : string) (db' : database) (ok : bool) :
  create_user hashpw db username email password salt timestamp = Some (db', ok) ->
  (ok = false /\ db' = db
   /\ exists u, u ∈ users db
                /\ (User.username u = Some username \/ User.email u = Some email))
  \/ (ok = true
      /\ (forall u, u ∈ users db ->
          User.username u <> Some username /\ User.email u <> Some email)
      /\ exists hashed,
           hashpw password salt = Some hashed
           /\ db' = mkdb (users db
                          ++ [User.mk (Some username) (Some email) (Some hashed)
                                (Some "{}") (Some timestamp)])
                         (tasks db)).
Proof.
  unfold create_user. intros H.
  apply bind_Some in H as (hashed & Hhash & H). injection H as H.
  destruct (existsb _ (users db)) eqn:Htaken.
  - injection H as <- <-. left. split; [reflexivity|]. split; [reflexivity|].
    apply existsb_exists in Htaken as (u & Hu%list_elem_of_In & Hor).
    exists u. split; [assumption|].
    apply orb_true_iff in Hor. by rewrite has_username_true, has_email_true in Hor.
  - injection H as <- <-. right. split; [reflexivity|]. split; [|eauto].
    intros u Hu. split; intros Heq.
    + assert (existsb (fun u => has_username username u || has_email email u)
                (users db) = true); [|congruence].
      apply existsb_exists. exists u. split; [by apply list_elem_of_In|].
      apply orb_true_iff. left. by apply has_username_true.
    + assert (existsb (fun u => has_username username u || has_email email u)
                (users db) = true); [|congruence].
      apply existsb_exists. exists u. split; [by apply list_elem_of_In|].
      apply orb_true_iff. right. by apply has_email_true.
Qed.

(** X14. [create_user] returns [False] and leaves the database as it is
    when the username or the email is taken; otherwise it returns [True]
    and adds one user, with the hash of the password and the settings
    "{}", to users that are otherwise the same; the tasks are the same,
    and usernames and emails stay unique. *)
Theorem create_user_registers_once
    (hashpw : string -> string -> option string) (db : database)
    (username email password salt timestamp : string) (db' : database) (ok : bool) :
  create_user hashpw db username email password salt timestamp = Some (db', ok) ->
  tasks db' = tasks db
  /\ (ok = false
      <-> exists u, u ∈ users db
                    /\ (User.username u = Some username \/ User.email u = Some email))
  /\ (ok = false -> db' = db)
  /\ (ok = true ->
      exists hashed,
        hashpw password salt = Some hashed
        /\ users db'
           = users db ++ [User.mk (Some username) (Some email) (Some hashed)
                            (Some "{}") (Some timestamp)])
  /\ (unique_users (users db) -> unique_users (users db')).
Proof.
  intros H.
  destruct (create_user_cases _ _ _ _ _ _ _ _ _ H)
    as [(-> & -> & Htaken)|(-> & Hfree & hashed & Hhash & ->)].
  - split; [reflexivity|]. split; [tauto|]. split; [done|]. split; [done|done].
  - split; [reflexivity|]. split; [|split; [done|split; [eauto|]]].
    + split; [done|]. intros (u & Hu & [Heq|Heq]); destruct (Hfree u Hu); done.
    + intros [Hnames Hemails]. cbn [users]. unfold unique_users.
      rewrite !omap_app. cbn [omap list_omap User.username User.email].
      split; apply NoDup_app; (split; [assumption|]);
        (split; [|apply NoDup_singleton]).
      * intros x (u & Hu & Hx)%list_elem_of_omap ->%list_elem_of_singleton.
        by destruct (Hfree u Hu).
      * intros x (u & Hu & Hx)%list_elem_of_omap ->%list_elem_of_singleton.
        by destruct (Hfree u Hu).
Qed.

Lemma create_user_registers_once_witness :
  let db := mkdb Sample.people [] in
  let carol := User.mk (Some "carol") (Some "carol@example.org") (Some "saltsecret")
                 (Some "{}") (Some "2024-02-01 10:00:00") in
  create_user More.hashpw db "carol" "carol@example.org" "secret" "salt"
    "2024-02-01 10:00:00"
  = Some (mkdb (Sample.people ++ [carol]) [], true)
  /\ create_user More.hashpw db "carol" "alice@example.org" "secret" "salt"
       "2024-02-01 10:00:00"
     = Some (db, false)
  /\ exists hashed,
       More.hashpw "secret" "salt" = Some hashed
       /\ users (mkdb (Sample.people ++ [carol]) [])
          = users db ++ [User.mk (Some "carol") (Some "carol@example.org") (Some hashed)
                           (Some "{}") (Some "2024-02-01 10:00:00")].
Proof.
  intros db carol.
  assert (H : create_user More.hashpw db "carol" "carol@example.org" "secret" "salt"
                "2024-02-01 10:00:00"
              = Some (mkdb (Sample.people ++ [carol]) [], true)) by reflexivity.
  split; [exact H|]. split; [reflexivity|].
  exact (proj1 (proj2 (proj2 (proj2
           (create_user_registers_once More.hashpw db "carol" "carol@example.org"
              "secret" "salt" "2024-02-01 10:00:00" _ _ H)))) eq_refl).
Defined.

(** X15. After [create_user] has returned [True], [authenticate_user]
    answers for the new username what [checkpw] answers for the attempt
    and the stored hash, and for every other username what it answered
    before; for a username that no user has it answers [False]. *)
Theorem authenticate_user_after_create_user
    (hashpw : string -> string -> option string)
    (checkpw : string -> string -> option bool) (db : database)
    (username email password salt timestamp : string) (db' : database) :
  create_user hashpw db username email password salt timestamp = Some (db', true) ->
  (exists hashed,
     hashpw password salt = Some hashed
     /\ forall attempt,
          authenticate_user checkpw db' username attempt = checkpw attempt hashed)
  /\ (forall other attempt, other <> username ->
      authenticate_user checkpw db' other attempt
      = authenticate_user checkpw db other attempt)
  /\ (forall other attempt,
      (forall u, u ∈ users db' -> User.username u <> Some other) ->
      authenticate_user checkpw db' other attempt = Some false).
Proof.
  intros H.
  destruct (create_user_cases _ _ _ _ _ _ _ _ _ H)
    as [([=] & _)|(_ & Hboth & hashed & Hhash & ->)].
  assert (Hfree : forall u, u ∈ users db -> User.username u <> Some username)
    by (intros u Hu; by destruct (Hboth u Hu)).
  assert (Husers : users (mkdb (users db
                                ++ [User.mk (Some username) (Some email) (Some hashed)
                                      (Some "{}") (Some timestamp)])
                               (tasks db))
                   = users db ++ [User.mk (Some username) (Some email) (Some hashed)
                                    (Some "{}") (Some timestamp)]) by reflexivity.
  split; [|split].
  - exists hashed. split; [assumption|]. intros attempt.
    unfold authenticate_user. rewrite Husers, filter_app, filter_nobody by assumption.
    rewrite filter_cons_True by (by apply has_username_true). reflexivity.
  - intros other attempt Hne. unfold authenticate_user.
    rewrite Husers, filter_app.
    rewrite (filter_cons_False _ _ []), app_nil_r; [reflexivity|].
    rewrite has_username_true. simpl. congruence.
  - intros other attempt Hno. unfold authenticate_user. by rewrite filter_nobody.
Qed.

Lemma authenticate_user_after_create_user_witness :
  let db := mkdb Sample.people [] in
  let carol := User.mk (Some "carol") (Some "carol@example.org") (Some "saltsecret")
                 (Some "{}") (Some "2024-02-01 10:00:00") in
  let db' := mkdb (Sample.people ++ [carol]) [] in
  create_user More.hashpw db "carol" "carol@example.org" "secret" "salt"
    "2024-02-01 10:00:00" = Some (db', true)
  /\ authenticate_user More.checkpw db' "carol" "secret" = Some true
  /\ authenticate_user More.checkpw db' "carol" "guess" = Some false
  /\ (forall other attempt, other <> "carol" ->
      authenticate_user More.checkpw db' other attempt
      = authenticate_user More.checkpw db other attempt).
Proof.
  intros db carol db'.
  assert (H : create_user More.hashpw db "carol" "carol@example.org" "secret" "salt"
                "2024-02-01 10:00:00" = Some (db', true)) by reflexivity.
  split; [exact H|]. split; [reflexivity|]. split; [reflexivity|].
  exact (proj1 (proj2
           (authenticate_user_after_create_user More.hashpw More.checkpw db "carol"
              "carol@example.org" "secret" "salt" "2024-02-01 10:00:00" db' H))).
Defined.

(** X16. [save_settings] returns [True] whether or not the user exists,
    and leaves the tasks alone. With a printer and a parser such that the
    text of the settings is not empty and parses back to them,
    [get_user_settings] then returns the saved settings for a user that
    exists, the empty settings for a user that does not, and for every
    other username what it returned before. *)
Theorem saved_settings_are_read_back (settings : Type) (no_settings : settings)
    (dumps : settings -> string) (loads : string -> option settings)
    (db : database) (username : string) (prefs : settings) :
  loads (dumps prefs) = Some prefs -> dumps prefs <> "" ->
  (save_settings settings dumps db username prefs).2 = true
  /\ tasks (save_settings settings dumps db username prefs).1 = tasks db
  /\ ((exists u, u ∈ users db /\ User.username u = Some username) ->
      get_user_settings settings no_settings loads
        (save_settings settings dumps db username prefs).1 username = prefs)
  /\ ((forall u, u ∈ users db -> User.username u <> Some username) ->
      (save_settings settings dumps db username prefs).1 = db
      /\ get_user_settings settings no_settings loads db username = no_settings)
  /\ (forall other, other <> username ->
      get_user_settings settings no_settings loads
        (save_settings settings dumps db username prefs).1 other
      = get_user_settings settings no_settings loads db other).
Proof.
  intros Hround Hne. split; [reflexivity|]. split; [reflexivity|].
  unfold get_user_settings, save_settings. cbn [fst users].
  split; [|split].
  - intros (u & Hu & Hname).
    induction (users db) as [|u0 us IH]; [by apply elem_of_nil in Hu|].
    cbn [map]. destruct (has_username username u0) eqn:H0.
    + rewrite filter_cons_True by exact H0.
      cbn [with_settings User.settings]. destruct (dumps prefs) eqn:E; [done|].
      by rewrite Hround.
    + rewrite filter_cons_False by (by rewrite H0).
      apply IH. apply elem_of_cons in Hu as [->|Hu]; [|assumption].
      apply has_username_true in Hname. congruence.
  - intros Hno. split.
    + destruct db as [us ts]. cbn [users tasks] in *. f_equal.
      induction us as [|u us IH]; [reflexivity|]. cbn [map].
      rewrite IH by (intros u' Hu'; apply Hno; by right).
      destruct (has_username username u) eqn:H0; [|reflexivity].
      apply has_username_true in H0. by destruct (Hno u ltac:(left)).
    + by rewrite filter_nobody.
  - intros other Hother.
    assert (Heq : forall us,
      filter (fun u => has_username other u = true)
        (map (fun u => if has_username username u
                       then with_settings (dumps prefs) u else u) us)
      = filter (fun u => has_username other u = true) us);
      [|by rewrite Heq].
    induction us as [|u us IH]; [reflexivity|]. cbn [map].
    destruct (has_username username u) eqn:H0.
    + apply has_username_true in H0.
      rewrite !filter_cons_False; [exact IH | |].
      * rewrite has_username_true. congruence.
      * rewrite has_username_true. cbn [with_settings User.username]. congruence.
    + destruct (has_username other u) eqn:H1.
      * rewrite !filter_cons_True by exact H1. by rewrite IH.
      * rewrite !filter_cons_False by (by rewrite H1). exact IH.
Qed.

Lemma saved_settings_are_read_back_witness :
  let db := mkdb Sample.people [] in
  let prefs := "{theme: dark}" in
  More.loads (More.dumps prefs) = Some prefs /\ More.dumps prefs <> ""
  /\ get_user_settings string "{}" More.loads
       (save_settings string More.dumps db "alice" prefs).1 "alice" = prefs
  /\ get_user_settings string "{}" More.loads
       (save_settings string More.dumps db "alice" prefs).1 "bob" = "{}".
Proof.
  intros db prefs.
  assert (H1 : More.loads (More.dumps prefs) = Some prefs) by reflexivity.
  assert (H2 : More.dumps prefs <> "") by discriminate.
  split; [exact H1|]. split; [exact H2|]. split; [|reflexivity].
  apply (saved_settings_are_read_back string "{}" More.dumps More.loads db "alice"
           prefs H1 H2).
  exists (Sample.user "alice"). split; [left | reflexivity].
Defined.

(** ** [cli.workload] and the tags [list_tasks] prints *)

Lemma count_up_lookup (counts counts' : gmap string nat) (key : sqlval) :
  Cli.count_up counts key = Some counts' ->
  exists k n, key = Some k /\ counts !! k = Some n /\ counts' = <[k := S n]> counts.
Proof.
  unfold Cli.count_up. destruct key as [k|]; [|discriminate].
  destruct (counts !! k) as [n|] eqn:E; [|discriminate].
  intros [= <-]. eauto.
Qed.

(** The count of each key grows by the number of tasks that have it. *)
Lemma tally_counts (ts : list Task.row) (sc pc : gmap string nat) :
  (forall t, t ∈ ts -> exists s p, Task.status t = Some s /\ Task.priority t = Some p
                                   /\ is_Some (sc !! s) /\ is_Some (pc !! p)) ->
  exists sc' pc',
    Cli.tally ts sc pc = Some (sc', pc')
    /\ (forall s, sc' !! s
          = (fun n => n + length (filter (fun t => Task.status t = Some s) ts))%nat
            <$> sc !! s)
    /\ (forall p, pc' !! p
          = (fun n => n + length (filter (fun t => Task.priority t = Some p) ts))%nat
            <$> pc !! p).
Proof.
  revert sc pc. induction ts as [|t ts IH]; intros sc pc Hall.
  { exists sc, pc. split; [reflexivity|].
    split; intros k; simpl; destruct (_ !! k); simpl; f_equal; lia. }
  destruct (Hall t ltac:(left)) as (s & p & Hs & Hp & [n Hn] & [m Hm]).
  cbn [Cli.tally]. rewrite Hs, Hp. cbn [Cli.count_up]. rewrite Hn, Hm.
  destruct (IH (<[s := S n]> sc) (<[p := S m]> pc)) as (sc' & pc' & Heq & Hsc & Hpc).
  { intros t' Ht'. destruct (Hall t' ltac:(by right)) as (s' & p' & ? & ? & Hs' & Hp').
    exists s', p'. repeat split; try assumption.
    - destruct (decide (s' = s)) as [->|]; [rewrite lookup_insert_eq; eauto|].
      by rewrite lookup_insert_ne.
    - destruct (decide (p' = p)) as [->|]; [rewrite lookup_insert_eq; eauto|].
      by rewrite lookup_insert_ne. }
  exists sc', pc'. split; [assumption|]. split.
  - intros k. rewrite Hsc. destruct (decide (k = s)) as [->|Hne].
    + rewrite lookup_insert_eq, Hn, filter_cons_True by assumption. simpl. f_equal. lia.
    + rewrite lookup_insert_ne by done.
      rewrite filter_cons_False by congruence. reflexivity.
  - intros k. rewrite Hpc. destruct (decide (k = p)) as [->|Hne].
    + rewrite lookup_insert_eq, Hm, filter_cons_True by assumption. simpl. f_equal. lia.
    + rewrite lookup_insert_ne by done.
      rewrite filter_cons_False by congruence. reflexivity.
Qed.

Lemma constraints_labels (t : Task.row) :
  Task.constraints t = true ->
  exists s p, Task.status t = Some s /\ Task.priority t = Some p
              /\ s ∈ ["pending"; "completed"]
              /\ p ∈ ["critical"; "high"; "medium"; "low"].
Proof.
  unfold Task.constraints.
  destruct (Task.title t) as [title|]; [|discriminate].
  destruct (Task.priority t) as [p|]; [|discriminate].
  destruct (Task.status t) as [s|]; [|discriminate].
  destruct (Task.created_by t) as [owner|]; [|discriminate].
  intros [Hp Hs]%andb_prop. exists s, p. split; [reflexivity|]. split; [reflexivity|].
  apply existsb_exists in Hp as (p' & Hp' & Hpeq).
  apply existsb_exists in Hs as (s' & Hs' & Hseq).
  apply String.eqb_eq in Hpeq, Hseq. subst p' s'.
  split; [by apply list_elem_of_In|].
  simpl in Hp'. destruct Hp' as [<-|[<-|[<-|[<-|[]]]]];
    repeat first [apply list_elem_of_here | apply list_elem_of_further].
Qed.

Lemma status_partition (ts : list Task.row) :
  (forall t, t ∈ ts -> Task.constraints t = true) ->
  (length (filter (fun t => Task.status t = Some "pending") ts)
   + length (filter (fun t => Task.status t = Some "completed") ts))%nat
  = length ts.
Proof.
  induction ts as [|t ts IH]; intros Hall; [reflexivity|].
  specialize (IH (fun t' Ht' => Hall t' ltac:(by right))).
  destruct (constraints_labels t (Hall t ltac:(left))) as (s & p & Hs & _ & Hin & _).
  apply elem_of_cons in Hin as [->|Hin]; [|apply list_elem_of_singleton in Hin as ->].
  - rewrite filter_cons_True by assumption.
    rewrite filter_cons_False by (rewrite Hs; discriminate). simpl. lia.
  - rewrite filter_cons_False by (rewrite Hs; discriminate).
    rewrite filter_cons_True by assumption. simpl. lia.
Qed.

(** X17. On a table that satisfies its schema, [workload] raises no
    [KeyError]: it reports the number of the user's tasks, for each
    status and each priority the number of those tasks that have it, and
    the numbers of pending and of completed tasks add up to the total. *)
Theorem workload_counts_every_task (db : database) (username : string) :
  well_formed db ->
  exists status_counts priority_counts,
    Cli.workload db username
    = Some (length (get_user_tasks db username), status_counts, priority_counts)
    /\ (forall s, s ∈ ["pending"; "completed"] ->
        status_counts !! s
        = Some (length (filter (fun t => Task.status t = Some s)
                          (get_user_tasks db username))))
    /\ (forall p, p ∈ ["critical"; "high"; "medium"; "low"] ->
        priority_counts !! p
        = Some (length (filter (fun t => Task.priority t = Some p)
                          (get_user_tasks db username))))
    /\ (length (filter (fun t => Task.status t = Some "pending")
                  (get_user_tasks db username))
        + length (filter (fun t => Task.status t = Some "completed")
                    (get_user_tasks db username)))%nat
       = length (get_user_tasks db username).
Proof.
  intros [_ Hc]. unfold Cli.workload.
  assert (Hall : forall t, t ∈ get_user_tasks db username -> Task.constraints t = true).
  { intros t Ht. unfold get_user_tasks in Ht. apply get_tasks_elem_of in Ht as [Ht _].
    rewrite forallb_forall in Hc. apply Hc. by apply list_elem_of_In. }
  set (sc0 := {["pending" := O; "completed" := O]} : gmap string nat).
  set (pc0 := {["critical" := O; "high" := O; "medium" := O; "low" := O]}
              : gmap string nat).
  destruct (tally_counts (get_user_tasks db username) sc0 pc0)
    as (sc & pc & Heq & Hsc & Hpc).
  { intros t Ht. destruct (constraints_labels t (Hall t Ht)) as (s & p & Hs & Hp & Hins & Hinp).
    exists s, p. split; [assumption|]. split; [assumption|]. split.
    - apply elem_of_cons in Hins as [->|Hins];
        [|apply list_elem_of_singleton in Hins as ->]; by eexists.
    - repeat (apply elem_of_cons in Hinp as [->|Hinp]; [by eexists|]).
      by apply elem_of_nil in Hinp. }
  exists sc, pc. rewrite Heq. split; [reflexivity|]. split; [|split].
  - intros s Hin. rewrite Hsc.
    apply elem_of_cons in Hin as [->|Hin];
      [|apply list_elem_of_singleton in Hin as ->]; reflexivity.
  - intros p Hin. rewrite Hpc.
    repeat (apply elem_of_cons in Hin as [->|Hin]; [reflexivity|]).
    by apply elem_of_nil in Hin.
  - by apply status_partition.
Qed.

Lemma workload_counts_every_task_witness :
  well_formed More.mixed_store
  /\ Cli.workload More.mixed_store "bob"
     = Some (2%nat, {["pending" := 2%nat; "completed" := O]},
             {["critical" := O; "high" := O; "medium" := 2%nat; "low" := O]})
  /\ exists status_counts priority_counts,
       Cli.workload More.mixed_store "bob"
       = Some (length (get_user_tasks More.mixed_store "bob"),
               status_counts, priority_counts)
       /\ status_counts !! "pending"
          = Some (length (filter (fun t => Task.status t = Some "pending")
                            (get_user_tasks More.mixed_store "bob"))).
Proof.
  assert (Hwf : well_formed More.mixed_store) by (apply well_formed_dec; reflexivity).
  split; [exact Hwf|]. split; [reflexivity|].
  destruct (workload_counts_every_task More.mixed_store "bob" Hwf)
    as (sc & pc & Heq & Hsc & _).
  exists sc, pc. split; [exact Heq|]. apply Hsc. left.
Defined.

Lemma split_commas_one (t : string) :
  comma_free t = true -> Cli.split_commas t = [t].
Proof.
  induction t as [|c t IH]; [reflexivity|]. simpl.
  intros [Hc Ht]%andb_prop. apply negb_true_iff in Hc. by rewrite Hc, IH.
Qed.

Lemma split_commas_head (t rest : string) :
  comma_free t = true ->
  Cli.split_commas (t +:+ "," +:+ rest) = t :: Cli.split_commas rest.
Proof.
  induction t as [|c t IH]; [reflexivity|]. rewrite append_cons. simpl.
  intros [Hc Ht]%andb_prop. apply negb_true_iff in Hc. by rewrite Hc, IH.
Qed.

Lemma split_join_tags (tl : list string) :
  tl <> [] -> forallb comma_free tl = true -> Cli.split_commas (join_tags tl) = tl.
Proof.
  induction tl as [|t tl IH]; [done|]. intros _ Hfree. simpl in Hfree.
  apply andb_prop in Hfree as [Ht Hfree].
  destruct tl as [|t' tl]; [by apply split_commas_one|].
  change (join_tags (t :: t' :: tl)) with (t +:+ "," +:+ join_tags (t' :: tl)).
  rewrite split_commas_head by assumption. f_equal. by apply IH.
Qed.

(** X18. The tags [list_tasks] prints for a task are the tags it was
    stored with, when there is at least one, none of them contains a
    comma, and their joined text is not empty; a tag that contains a
    comma comes back as two tags. *)
Theorem shown_tags_are_the_stored_tags (t : Task.row) (tl : list string) :
  Task.tags t = Some (join_tags tl) -> tl <> [] -> join_tags tl <> "" ->
  forallb comma_free tl = true ->
  Cli.shown_tags t = Some tl
  /\ Cli.split_commas (join_tags ["a,b"; "c"]) = ["a"; "b"; "c"].
Proof.
  intros Htags Hne Hjoin Hfree. split; [|reflexivity].
  unfold Cli.shown_tags. rewrite Htags.
  destruct (join_tags tl) eqn:E; [done|]. rewrite <- E. f_equal.
  by apply split_join_tags.
Qed.

Lemma shown_tags_are_the_stored_tags_witness :
  let t := Sample.task "t1" None None "work,urgent" "alice" in
  Task.tags t = Some (join_tags ["work"; "urgent"])
  /\ ["work"; "urgent"] <> [] /\ join_tags ["work"; "urgent"] <> ""
  /\ forallb comma_free ["work"; "urgent"] = true
  /\ Cli.shown_tags t = Some ["work"; "urgent"].
Proof.
  intros t.
  assert (H1 : Task.tags t = Some (join_tags ["work"; "urgent"])) by reflexivity.
  assert (H2 : ["work"; "urgent"] <> []) by discriminate.
  assert (H3 : join_tags ["work"; "urgent"] <> "") by discriminate.
  assert (H4 : forallb comma_free ["work"; "urgent"] = true) by reflexivity.
  split; [exact H1|]. split; [exact H2|]. split; [exact H3|]. split; [exact H4|].
  exact (proj1 (shown_tags_are_the_stored_tags t ["work"; "urgent"] H1 H2 H3 H4)).
Defined.

(** ** The order of ISO texts *)

Lemma string_compare_cons (c d : ascii) (a b : string) :
  String.compare (String c a) (String d b)
  = match Ascii.compare c d with
    | Eq => String.compare a b
    | Lt => Lt
    | Gt => Gt
    end.
Proof. simpl. by destruct (Ascii.compare c d). Qed.

Lemma ascii_compare_refl (c : ascii) : Ascii.compare c c = Eq.
Proof. unfold Ascii.compare. apply N.compare_refl. Qed.

Lemma digit_char_compare (m n : Z) :
  Ascii.compare (Iso.digit_char m) (Iso.digit_char n) = (m mod 10 ?= n mod 10).
Proof.
  unfold Ascii.compare, Iso.digit_char.
  assert (Hm : 0 <= m mod 10 < 10) by (apply Z.mod_pos_bound; lia).
  assert (Hn : 0 <= n mod 10 < 10) by (apply Z.mod_pos_bound; lia).
  rewrite !N_ascii_embedding by lia.
  destruct (Z.compare_spec (m mod 10) (n mod 10)) as [H|H|H].
  - rewrite H. apply N.compare_refl.
  - apply N.compare_lt_iff. lia.
  - apply N.compare_gt_iff. lia.
Qed.

(** Numbers of the same width compare as their texts. *)
Lemma pad_compare (w : nat) (m n : Z) (x y : string) :
  0 <= m < 10 ^ Z.of_nat w -> 0 <= n < 10 ^ Z.of_nat w ->
  String.compare (Iso.pad w m +:+ x) (Iso.pad w n +:+ y)
  = match m ?= n with
    | Eq => String.compare x y
    | Lt => Lt
    | Gt => Gt
    end.
Proof.
  revert m n x y. induction w as [|w IH]; intros m n x y Hm Hn.
  - simpl in *. assert (m = 0) as -> by lia. assert (n = 0) as -> by lia. reflexivity.
  - cbn [Iso.pad]. rewrite !append_assoc, !append_cons, !append_nil_l.
    rewrite Nat2Z.inj_succ, Z.pow_succ_r in Hm, Hn by lia.
    rewrite IH by (split; [apply Z.div_pos | apply Z.div_lt_upper_bound]; lia).
    rewrite string_compare_cons, digit_char_compare.
    destruct (Z.compare_spec (m / 10) (n / 10)) as [Hq|Hq|Hq];
      destruct (Z.compare_spec (m mod 10) (n mod 10)) as [Hr|Hr|Hr];
      destruct (Z.compare_spec m n) as [H|H|H];
      try reflexivity; exfalso; Z.div_mod_to_equations; lia.
Qed.

Lemma separator_compare (c : ascii) (x y : string) :
  String.compare (String c "" +:+ x) (String c "" +:+ y) = String.compare x y.
Proof.
  rewrite !append_cons, !append_nil_l, string_compare_cons.
  by rewrite ascii_compare_refl.
Qed.

Lemma fraction_compare (a b : Z) :
  0 <= a < 1000000 -> 0 <= b < 1000000 ->
  String.compare (if a =? 0 then "" else "." +:+ Iso.pad 6 a)
                 (if b =? 0 then "" else "." +:+ Iso.pad 6 b)
  = (a ?= b).
Proof.
  intros Ha Hb.
  destruct (Z.eqb_spec a 0) as [->|Ha0], (Z.eqb_spec b 0) as [->|Hb0].
  - reflexivity.
  - symmetry. apply Z.compare_lt_iff. lia.
  - symmetry. apply Z.compare_gt_iff. lia.
  - change ("." +:+ Iso.pad 6 a) with (String "." (Iso.pad 6 a)).
    change ("." +:+ Iso.pad 6 b) with (String "." (Iso.pad 6 b)).
    rewrite string_compare_cons, ascii_compare_refl.
    rewrite <- (append_nil_r (Iso.pad 6 a)), <- (append_nil_r (Iso.pad 6 b)).
    rewrite pad_compare by (simpl; lia). by destruct (a ?= b).
Qed.

Lemma valid_bounds (t : datetime) :
  valid t = true ->
  0 <= year t < 10000 /\ 0 <= month t < 100 /\ 0 <= day t < 100
  /\ 0 <= hour t < 100 /\ 0 <= minute t < 100 /\ 0 <= second t < 100
  /\ 0 <= microsecond t < 1000000.
Proof.
  unfold valid. intros [Hd Ht]%andb_prop.
  apply check_date_fields_bounds in Hd. apply check_time_fields_bounds in Ht. tauto.
Qed.

(** The ISO texts of two valid datetimes are in the order of the
    datetimes. *)
Lemma isoformat_compare (a b : datetime) :
  valid a = true -> valid b = true ->
  String.ltb (Iso.isoformat a) (Iso.isoformat b) = earlier a b.
Proof.
  intros (Hy & Hm & Hd & Hh & Hmi & Hs & Hus)%valid_bounds
         (Hy' & Hm' & Hd' & Hh' & Hmi' & Hs' & Hus')%valid_bounds.
  unfold String.ltb, Iso.isoformat, earlier, Calendar.leb, key.
  cbn [lex_leb].
  rewrite pad_compare by (simpl; lia).
  destruct (Z.compare_spec (year a) (year b)) as [->|H|H];
    [|by rewrite (proj2 (Z.ltb_ge _ _)), (proj2 (Z.eqb_neq _ _)) by lia
     |by rewrite (proj2 (Z.ltb_lt _ _)) by lia].
  rewrite Z.ltb_irrefl, Z.eqb_refl. cbn [orb andb].
  change "-" with (String "-" "") at 1 3. rewrite separator_compare.
  rewrite pad_compare by (simpl; lia).
  destruct (Z.compare_spec (month a) (month b)) as [->|H|H];
    [|by rewrite (proj2 (Z.ltb_ge _ _)), (proj2 (Z.eqb_neq _ _)) by lia
     |by rewrite (proj2 (Z.ltb_lt _ _)) by lia].
  rewrite Z.ltb_irrefl, Z.eqb_refl. cbn [orb andb].
  change "-" with (String "-" "") at 1 2. rewrite separator_compare.
  rewrite pad_compare by (simpl; lia).
  destruct (Z.compare_spec (day a) (day b)) as [->|H|H];
    [|by rewrite (proj2 (Z.ltb_ge _ _)), (proj2 (Z.eqb_neq _ _)) by lia
     |by rewrite (proj2 (Z.ltb_lt _ _)) by lia].
  rewrite Z.ltb_irrefl, Z.eqb_refl. cbn [orb andb].
  change "T" with (String "T" "") at 1 2. rewrite separator_compare.
  rewrite pad_compare by (simpl; lia).
  destruct (Z.compare_spec (hour a) (hour b)) as [->|H|H];
    [|by rewrite (proj2 (Z.ltb_ge _ _)), (proj2 (Z.eqb_neq _ _)) by lia
     |by rewrite (proj2 (Z.ltb_lt _ _)) by lia].
  rewrite Z.ltb_irrefl, Z.eqb_refl. cbn [orb andb].
  change ":" with (String ":" "") at 1 3. rewrite separator_compare.
  rewrite pad_compare by (simpl; lia).
  destruct (Z.compare_spec (minute a) (minute b)) as [->|H|H];
    [|by rewrite (proj2 (Z.ltb_ge _ _)), (proj2 (Z.eqb_neq _ _)) by lia
     |by rewrite (proj2 (Z.ltb_lt _ _)) by lia].
  rewrite Z.ltb_irrefl, Z.eqb_refl. cbn [orb andb].
  change ":" with (String ":" "") at 1 2. rewrite separator_compare.
  rewrite pad_compare by (simpl; lia).
  destruct (Z.compare_spec (second a) (second b)) as [->|H|H];
    [|by rewrite (proj2 (Z.ltb_ge _ _)), (proj2 (Z.eqb_neq _ _)) by lia
     |by rewrite (proj2 (Z.ltb_lt _ _)) by lia].
  rewrite Z.ltb_irrefl, Z.eqb_refl. cbn [orb andb].
  rewrite fraction_compare by assumption.
  destruct (Z.compare_spec (microsecond a) (microsecond b)) as [->|H|H].
  - by rewrite Z.ltb_irrefl, Z.eqb_refl.
  - by rewrite (proj2 (Z.ltb_ge _ _)), (proj2 (Z.eqb_neq _ _)) by lia.
  - by rewrite (proj2 (Z.ltb_lt _ _)) by lia.
Qed.

Lemma isoformat_not_empty (t : datetime) : truthy (Some (Iso.isoformat t)) = true.
Proof. unfold Iso.isoformat. rewrite pad_4. reflexivity. Qed.

(** X19. On a due date in the ISO form that the scan writes, the
    [--overdue] post-filter is right: with the current time in the same
    form, it keeps a task exactly when the due date is strictly before
    the current time and the status is not "completed". *)
Theorem overdue_filter_on_iso_texts (now due : datetime) (ts : list Task.row)
    (t : Task.row) :
  valid now = true -> valid due = true ->
  Task.due_date t = Some (Iso.isoformat due) ->
  t ∈ overdue_filter (Iso.isoformat now) ts
  <-> t ∈ ts /\ earlier due now = true /\ Task.status t <> Some "completed".
Proof.
  intros Hnow Hdue Htext. unfold overdue_filter, is_overdue.
  rewrite list_elem_of_filter, Htext, isoformat_not_empty, isoformat_compare
    by assumption.
  cbn [andb]. rewrite andb_true_iff, negb_true_iff, bool_decide_eq_false. tauto.
Qed.

Lemma overdue_filter_on_iso_texts_witness :
  let now := More.noon 2024 1 10 in
  let due := mkdatetime 2024 1 10 11 59 59 500000 in
  let t := Sample.task "t-due" (Some "2024-01-10T11:59:59.500000") None "" "alice" in
  valid now = true /\ valid due = true
  /\ Task.due_date t = Some (Iso.isoformat due)
  /\ earlier due now = true
  /\ t ∈ overdue_filter (Iso.isoformat now) [t].
Proof.
  intros now due t.
  assert (Hnow : valid now = true) by reflexivity.
  assert (Hdue : valid due = true) by reflexivity.
  assert (Htext : Task.due_date t = Some (Iso.isoformat due)) by reflexivity.
  split; [exact Hnow|]. split; [exact Hdue|]. split; [exact Htext|].
  split; [reflexivity|].
  apply (overdue_filter_on_iso_texts now due [t] t Hnow Hdue Htext).
  split; [left|]. split; [reflexivity | discriminate].
Defined.

(** X20. On a due date in the form YYYY-MM-DD, as [cli.add] asks for it,
    the [--overdue] post-filter keeps a task that is not completed from
    the midnight that begins the day on, that instant included: exactly
    when that midnight is not after the current time. *)
Theorem overdue_filter_on_dates (now : datetime) (y m d : Z) (ts : list Task.row)
    (t : Task.row) :
  valid now = true -> check_date_fields y m d = true ->
  Task.due_date t = Some (date_text y m d) ->
  t ∈ overdue_filter (Iso.isoformat now) ts
  <-> t ∈ ts /\ Calendar.leb (mkdatetime y m d 0 0 0 0) now = true
      /\ Task.status t <> Some "completed".
Proof.
  intros (Hy' & Hm' & Hd' & Hh' & Hmi' & Hs' & Hus')%valid_bounds
         (Hy & Hm & Hd)%check_date_fields_bounds Htext.
  assert (Hcmp : String.ltb (date_text y m d) (Iso.isoformat now)
                 = Calendar.leb (mkdatetime y m d 0 0 0 0) now).
  { unfold String.ltb, date_text, Iso.isoformat, Calendar.leb, key.
    cbn [lex_leb year month day hour minute second microsecond].
    rewrite pad_compare by (simpl; lia).
    destruct (Z.compare_spec y (year now)) as [->|H|H];
      [|by rewrite (proj2 (Z.ltb_lt _ _)) by lia
       |by rewrite (proj2 (Z.ltb_ge _ _)), (proj2 (Z.eqb_neq _ _)) by lia].
    rewrite Z.ltb_irrefl, Z.eqb_refl. cbn [orb andb].
    change "-" with (String "-" "") at 1 3. rewrite separator_compare.
    rewrite pad_compare by (simpl; lia).
    destruct (Z.compare_spec m (month now)) as [->|H|H];
      [|by rewrite (proj2 (Z.ltb_lt _ _)) by lia
       |by rewrite (proj2 (Z.ltb_ge _ _)), (proj2 (Z.eqb_neq _ _)) by lia].
    rewrite Z.ltb_irrefl, Z.eqb_refl. cbn [orb andb].
    change "-" with (String "-" "") at 1 2. rewrite separator_compare.
    rewrite <- (append_nil_r (Iso.pad 2 d)).
    rewrite pad_compare by (simpl; lia).
    destruct (Z.compare_spec d (day now)) as [->|H|H];
      [|by rewrite (proj2 (Z.ltb_lt _ _)) by lia
       |by rewrite (proj2 (Z.ltb_ge _ _)), (proj2 (Z.eqb_neq _ _)) by lia].
    rewrite Z.ltb_irrefl, Z.eqb_refl. cbn [orb andb].
    change (("" ?= "T" +:+ ?x)%string) with Lt.
    symmetry.
    repeat match goal with
           | |- context [0 <? ?x] => destruct (Z.ltb_spec 0 x); [reflexivity|]
           | |- context [0 =? ?x] => destruct (Z.eqb_spec 0 x); [|lia]
           end; reflexivity. }
  unfold overdue_filter, is_overdue.
  rewrite list_elem_of_filter, Htext, Hcmp.
  assert (Hne : truthy (Some (date_text y m d)) = true)
    by (unfold date_text; rewrite pad_4; reflexivity).
  rewrite Hne. cbn [andb]. rewrite andb_true_iff, negb_true_iff, bool_decide_eq_false.
  tauto.
Qed.

Lemma overdue_filter_on_dates_witness :
  let now := Sample.midnight 2024 1 5 in
  let t := Sample.task "t-due" (Some "2024-01-05") None "" "alice" in
  valid now = true /\ check_date_fields 2024 1 5 = true
  /\ Task.due_date t = Some (date_text 2024 1 5)
  /\ Calendar.leb (mkdatetime 2024 1 5 0 0 0 0) now = true
  /\ t ∈ overdue_filter (Iso.isoformat now) [t].
Proof.
  intros now t.
  assert (Hnow : valid now = true) by reflexivity.
  assert (Hdate : check_date_fields 2024 1 5 = true) by reflexivity.
  assert (Htext : Task.due_date t = Some (date_text 2024 1 5)) by reflexivity.
  split; [exact Hnow|]. split; [exact Hdate|]. split; [exact Htext|].
  split; [reflexivity|].
  apply (overdue_filter_on_dates now 2024 1 5 [t] t Hnow Hdate Htext).
  split; [left|]. split; [reflexivity | discriminate].
Defined.
